(** * pygmsh.opencascade.geometry: the Geometry builder and its boolean operations

    A shallow embedding of [src/pygmsh/opencascade/geometry.py].

    The Python class [Geometry] keeps its deferred-action queues as mutable
    attributes, talks to the gmsh kernel through the [gmsh] module and raises
    exceptions.  The embedding threads a [World] (the attributes of [self],
    the log of the calls made to the kernel, what was printed) through a
    state-and-exception monad, so that a method which raises still shows the
    mutations it had made before raising, as in Python. *)

From Stdlib Require Import QArith.
From stdpp Require Import base strings list pretty.

Local Open Scope Z_scope.
Local Open Scope string_scope.
Local Open Scope list_scope.

(** ** Python values that the class only passes around *)

(** Positional and keyword arguments of the [add_*] methods, and the
    [mesh_size] stored in the size queue: numbers and tuples of numbers. *)
Inductive Param :=
| Num (q : Q)
| Tuple (qs : list Q).

(** A dim-tag: the kernel's (dimension, tag) handle. *)
Definition DimTag : Type := Z * Z.

(** An entity's [id] is an integer or a string; [str] is how an f-string
    renders it. *)
Inductive EntityId :=
| IdInt (n : Z)
| IdStr (s : string).

Definition str (i : EntityId) : string :=
  match i with
  | IdInt n => pretty n
  | IdStr s => s
  end.

(** ** Entities *)

Inductive Shape :=
| Rectangle | Disk | Ball | Box | Cone | Cylinder | Ellipsoid | Torus | Wedge.

(** Modelled from the spec: the entity classes ([Rectangle], [Disk], [Ball],
    [Box], [Cone], [Cylinder], [Ellipsoid], [Torus], [Wedge], [SurfaceBase],
    [VolumeBase], [Boolean]) are imported by geometry.py from modules that
    are not part of the source at hand.  The spec says that a primitive
    factory call "constructs and returns a new entity" with "no kernel
    interaction", and that a composite entity wraps "the operation
    name/label and the resulting dim-tag(s)".  An entity is therefore the
    record of the constructor call that built it, with the arguments
    geometry.py passes. *)
Inductive Entity :=
| Primitive (shape : Shape) (args : list Param) (kwargs : list (string * Param))
| SurfaceBase (id0 : string) (is_list : bool)
| VolumeBase (id0 : string) (is_list : bool)
| Boolean (tags : list DimTag) (operation : string).

(** The attributes geometry.py reads from an entity.  What the absent
    classes store in them is left open: every result below holds for any
    implementation of this interface. *)
Class Attributes := {
  dimension : Entity → Z;
  id : Entity → EntityId;
  dim_tags : Entity → DimTag;
  code : Entity → string;
}.

(** ** The gmsh kernel *)

Module gmsh.

(** The calls geometry.py makes into the [gmsh] module, with the
    arguments it passes. *)
Inductive call :=
| initialize
| finalize
| option_setNumber (name : string) (value : Param)
| model_occ_synchronize
| model_occ_intersect (objectDimTags toolDimTags : list DimTag)
                      (removeObject removeTool : bool)
| model_occ_fuse (objectDimTags toolDimTags : list DimTag)
                 (removeObject removeTool : bool)
| model_occ_cut (objectDimTags toolDimTags : DimTag).

(** The kernel is external and stateful: its answer to a call depends on
    the calls made before.  [reply history c] is [Some out] when the call
    returns, [out] being the list of resulting dim-tags (the first
    component of the pair the boolean entry points return), and [None]
    when the kernel raises. *)
Class Kernel := reply : list call → call → option (list DimTag).

End gmsh.

(** ** Exceptions *)

(** The three [assert] statements of geometry.py, under the names the
    specification gives their failures. *)
Inductive Assertion :=
| IllegalDimension (e : Entity)        (* "Illegal input type '{}' for Boolean operation." *)
| IncompatibleDimension (e : Entity)   (* "Incompatible input type '{}' for Boolean operation." *)
| InconsistentBooleanResult.           (* the bare asserts on the kernel's output *)

Inductive Exception :=
| AttributeError (name : string)
| IndexError
| KeyError
| TypeError
| AssertionError (a : Assertion)
| KernelError.

(** ** The state *)

(** The attributes of a [Geometry] instance.  [__init__] creates the seven
    queues; [_BOOLEAN_ID] and [_GMSH_CODE] are used by the methods but no
    statement of the class creates them, so each is an attribute that may be
    absent. *)
Record Geometry := mkGeometry {
  _AFTER_SYNC_QUEUE : list Entity;
  _EMBED_QUEUE : list (Entity * Entity);
  _COMPOUND_ENTITIES : list Entity;
  _RECOMBINE_ENTITIES : list Entity;
  _TRANSFINITE_CURVE_QUEUE : list (Entity * Param);
  _TRANSFINITE_SURFACE_QUEUE : list (Entity * Param);
  _SIZE_QUEUE : list (Entity * Param);
  _BOOLEAN_ID : option Z;
  _GMSH_CODE : option (list string);
}.

Record World := mkWorld {
  self : Geometry;
  kernel_log : list gmsh.call;   (* calls made to the kernel, oldest first *)
  stdout : list Entity;          (* objects handed to print, oldest first *)
}.

Definition set_self (g : Geometry) (w : World) : World :=
  mkWorld g (kernel_log w) (stdout w).

Definition set_SIZE_QUEUE (q : list (Entity * Param)) (g : Geometry) : Geometry :=
  mkGeometry (_AFTER_SYNC_QUEUE g) (_EMBED_QUEUE g) (_COMPOUND_ENTITIES g)
    (_RECOMBINE_ENTITIES g) (_TRANSFINITE_CURVE_QUEUE g)
    (_TRANSFINITE_SURFACE_QUEUE g) q (_BOOLEAN_ID g) (_GMSH_CODE g).

Definition set_BOOLEAN_ID (n : Z) (g : Geometry) : Geometry :=
  mkGeometry (_AFTER_SYNC_QUEUE g) (_EMBED_QUEUE g) (_COMPOUND_ENTITIES g)
    (_RECOMBINE_ENTITIES g) (_TRANSFINITE_CURVE_QUEUE g)
    (_TRANSFINITE_SURFACE_QUEUE g) (_SIZE_QUEUE g) (Some n) (_GMSH_CODE g).

Definition set_GMSH_CODE (c : list string) (g : Geometry) : Geometry :=
  mkGeometry (_AFTER_SYNC_QUEUE g) (_EMBED_QUEUE g) (_COMPOUND_ENTITIES g)
    (_RECOMBINE_ENTITIES g) (_TRANSFINITE_CURVE_QUEUE g)
    (_TRANSFINITE_SURFACE_QUEUE g) (_SIZE_QUEUE g) (_BOOLEAN_ID g) (Some c).

(** The world after some more kernel calls. *)
Definition logged (cs : list gmsh.call) (w : World) : World :=
  mkWorld (self w) (kernel_log w ++ cs) (stdout w).

(** ** The monad: state passing with exceptions *)

Definition Outcome (A : Type) : Type := Exception + A.

Definition M (A : Type) : Type := World → World * Outcome A.

Definition ret {A} (a : A) : M A := λ w, (w, inr a).

Definition raise {A} (e : Exception) : M A := λ w, (w, inl e).

Definition bind {A B} (m : M A) (k : A → M B) : M B :=
  λ w, match m w with
       | (w', inr a) => k a w'
       | (w', inl e) => (w', inl e)
       end.

Notation "x <- m ;; k" := (bind m (λ x, k))
  (at level 100, m at next level, right associativity,
   format "'[v' x  <-  m  ;;  '/' k ']'").
Notation "m ;;; k" := (bind m (λ _, k))
  (at level 100, right associativity,
   format "'[v' m  ;;;  '/' k ']'").

(** [assert cond] *)
Definition assert (cond : bool) (a : Assertion) : M unit :=
  if cond then ret () else raise (AssertionError a).

(** [l[0]] *)
Definition first {A} (l : list A) : M A :=
  match l with
  | x :: _ => ret x
  | [] => raise IndexError
  end.

(** [d[k]] on a dict, kept as an association list in insertion order. *)
Fixpoint getitem {K V} `{EqDecision K} (d : list (K * V)) (k : K) : M V :=
  match d with
  | [] => raise KeyError
  | (k', v) :: d' => if decide (k' = k) then ret v else getitem d' k
  end.

(** [for x in l: body], the body without local state. *)
Fixpoint for_each {A} (l : list A) (body : A → M unit) : M unit :=
  match l with
  | [] => ret ()
  | x :: l' => body x ;;; for_each l' body
  end.

(** [for x in l: body], the body updating one local variable. *)
Fixpoint for_fold {A S} (l : list A) (s : S) (body : S → A → M S) : M S :=
  match l with
  | [] => ret s
  | x :: l' => s' <- body s x ;; for_fold l' s' body
  end.

(** [print(e)] *)
Definition print (e : Entity) : M unit :=
  λ w, (mkWorld (self w) (kernel_log w) (stdout w ++ [e]), inr ()).

(** Reading and writing the attributes of [self]. *)
Definition get_BOOLEAN_ID : M Z :=
  λ w, match _BOOLEAN_ID (self w) with
       | Some n => (w, inr n)
       | None => (w, inl (AttributeError "_BOOLEAN_ID"))
       end.

Definition put_BOOLEAN_ID (n : Z) : M unit :=
  λ w, (set_self (set_BOOLEAN_ID n (self w)) w, inr ()).

Definition get_GMSH_CODE : M (list string) :=
  λ w, match _GMSH_CODE (self w) with
       | Some c => (w, inr c)
       | None => (w, inl (AttributeError "_GMSH_CODE"))
       end.

(** [self._GMSH_CODE.append(s)]: the attribute is looked up, then the list
    it holds is extended in place. *)
Definition GMSH_CODE_append (s : string) : M unit :=
  c <- get_GMSH_CODE ;;
  λ w, (set_self (set_GMSH_CODE (c ++ [s]) (self w)) w, inr ()).

(** [self._SIZE_QUEUE.append(x)] *)
Definition SIZE_QUEUE_append (x : Entity * Param) : M unit :=
  λ w, (set_self (set_SIZE_QUEUE (_SIZE_QUEUE (self w) ++ [x]) (self w)) w, inr ()).

(** ** The class [Geometry] *)

Section GeometryMethods.
Context {attributes : Attributes} {kernel : gmsh.Kernel}.

(** A call into [gmsh]: it is logged, and returns what the kernel answers
    or raises when the kernel does. *)
Definition kernel_call (c : gmsh.call) : M (list DimTag) :=
  λ w, match gmsh.reply (kernel_log w) c with
       | Some out => (logged [c] w, inr out)
       | None => (logged [c] w, inl KernelError)
       end.

(** The attributes a new instance has once the assignments at the top of
    [__init__] have run. *)
Definition new_Geometry : Geometry :=
  {| _AFTER_SYNC_QUEUE := [];
     _EMBED_QUEUE := [];
     _COMPOUND_ENTITIES := [];
     _RECOMBINE_ENTITIES := [];
     _TRANSFINITE_CURVE_QUEUE := [];
     _TRANSFINITE_SURFACE_QUEUE := [];
     _SIZE_QUEUE := [];
     _BOOLEAN_ID := None;
     _GMSH_CODE := None |}.

Definition __init__ (characteristic_length_min characteristic_length_max : option Param)
  : M unit :=
  (λ w, (set_self new_Geometry w, inr ())) ;;;
  kernel_call gmsh.initialize ;;;
  match characteristic_length_min with
  | Some v => kernel_call (gmsh.option_setNumber "Mesh.CharacteristicLengthMin" v) ;;; ret ()
  | None => ret ()
  end ;;;
  match characteristic_length_max with
  | Some v => kernel_call (gmsh.option_setNumber "Mesh.CharacteristicLengthMax" v) ;;; ret ()
  | None => ret ()
  end.

Definition __del__ : M unit :=
  kernel_call gmsh.finalize ;;; ret ().

Definition synchronize : M unit :=
  kernel_call gmsh.model_occ_synchronize ;;; ret ().

(** *** Primitives *)

Definition add_rectangle (args : list Param) (mesh_size : option Param)
    (kwargs : list (string * Param)) : M Entity :=
  let entity := Primitive Rectangle args kwargs in
  match mesh_size with
  | Some m => SIZE_QUEUE_append (entity, m)
  | None => ret ()
  end ;;;
  ret entity.

Definition add_disk (args : list Param) (mesh_size : option Param)
    (kwargs : list (string * Param)) : M Entity :=
  let entity := Primitive Disk args kwargs in
  match mesh_size with
  | Some m => SIZE_QUEUE_append (entity, m)
  | None => ret ()
  end ;;;
  ret entity.

Definition add_ball (args : list Param) (mesh_size : option Param)
    (kwargs : list (string * Param)) : M Entity :=
  let cone := Primitive Ball args kwargs in
  match mesh_size with
  | Some m => SIZE_QUEUE_append (cone, m)
  | None => ret ()
  end ;;;
  ret cone.

Definition add_box (args : list Param) (mesh_size : option Param)
    (kwargs : list (string * Param)) : M Entity :=
  let box := Primitive Box args kwargs in
  match mesh_size with
  | Some m => SIZE_QUEUE_append (box, m)
  | None => ret ()
  end ;;;
  ret box.

Definition add_cone (args : list Param) (mesh_size : option Param)
    (kwargs : list (string * Param)) : M Entity :=
  let cone := Primitive Cone args kwargs in
  match mesh_size with
  | Some m => SIZE_QUEUE_append (cone, m)
  | None => ret ()
  end ;;;
  ret cone.

(** The four methods below have no [mesh_size] parameter of their own: a
    caller's [mesh_size=...] is one more entry of [kwargs] and goes to the
    constructor. *)
Definition add_cylinder (args : list Param) (kwargs : list (string * Param))
  : M Entity :=
  let p := Primitive Cylinder args kwargs in
  GMSH_CODE_append (code p) ;;;
  ret p.

Definition add_ellipsoid (args : list Param) (kwargs : list (string * Param))
  : M Entity :=
  let p := Primitive Ellipsoid args kwargs in
  GMSH_CODE_append (code p) ;;;
  ret p.

Definition add_torus (args : list Param) (kwargs : list (string * Param))
  : M Entity :=
  let p := Primitive Torus args kwargs in
  GMSH_CODE_append (code p) ;;;
  ret p.

Definition add_wedge (args : list Param) (kwargs : list (string * Param))
  : M Entity :=
  let p := Primitive Wedge args kwargs in
  GMSH_CODE_append (code p) ;;;
  ret p.

(** *** Boolean operations through the command stream *)

Definition legal_dim_types : list (Z * string) :=
  [(1, "Line"); (2, "Surface"); (3, "Volume")].

(** [{"Line": None, "Surface": SurfaceBase, "Volume": VolumeBase}] *)
Definition mapping : list (string * option (string → bool → Entity)) :=
  [("Line", None); ("Surface", Some SurfaceBase); ("Volume", Some VolumeBase)].

(** [";".join([f"{legal_dim_type}{{{e.id}}}" for e in entities]) + ";"],
    or the empty string for an empty list. *)
Definition formatted_entities (legal_dim_type : string) (entities : list Entity)
  : string :=
  match entities with
  | [] => ""
  | _ => String.concat ";"
           (map (λ e, legal_dim_type +:+ "{" +:+ str (id e) +:+ "}") entities)
         +:+ ";"
  end.

(** The statement appended to the command stream. *)
Definition command (name operation ientities idelete tentities tdelete : string)
  : string :=
  name +:+ "[] = " +:+ operation +:+ "{ " +:+ ientities +:+ " " +:+ idelete
    +:+ " } { " +:+ tentities +:+ " " +:+ tdelete +:+ "};".

Definition _boolean_operation (operation : string)
    (input_entities tool_entities : list Entity)
    (delete_first delete_other : bool) : M Entity :=
  n <- get_BOOLEAN_ID ;;
  put_BOOLEAN_ID (n + 1) ;;;
  (* the loop over the keys of legal_dim_types, left at the first match *)
  e0 <- first input_entities ;;
  dim <- match find (λ ldt, bool_decide (dimension e0 = ldt)) (map fst legal_dim_types) with
         | Some ldt => ret ldt
         | None => raise (AssertionError (IllegalDimension e0))
         end ;;
  for_each (tail input_entities ++ tool_entities)
    (λ e, assert (bool_decide (dimension e = dim)) (IncompatibleDimension e)) ;;;
  boolean_id <- get_BOOLEAN_ID ;;
  let name := "bo" +:+ pretty boolean_id in
  let input_delete := if delete_first then "Delete;" else "" in
  let tool_delete := if delete_other then "Delete;" else "" in
  legal_dim_type <- getitem legal_dim_types dim ;;
  let formatted_input_entities := formatted_entities legal_dim_type input_entities in
  let formatted_tool_entities := formatted_entities legal_dim_type tool_entities in
  GMSH_CODE_append
    (command name operation formatted_input_entities input_delete
       formatted_tool_entities tool_delete) ;;;
  key <- getitem legal_dim_types dim ;;
  cls <- getitem mapping key ;;
  match cls with
  | Some new => ret (new name true)
  | None => raise TypeError
  end.

(** [boolean_fragments] hands its arguments on; the two delete flags
    default to [True]. *)
Definition boolean_fragments (input_entities tool_entities : list Entity)
    (delete_first delete_other : bool) : M Entity :=
  _boolean_operation "BooleanFragments" input_entities tool_entities
    delete_first delete_other.

(** *** Boolean operations through direct kernel calls *)

(** [all(out[0] == item for item in out)]: [out[0]] is evaluated once per
    item, so an empty [out] passes. *)
Definition all_equal_first (out : list DimTag) : bool :=
  match out with
  | [] => true
  | out0 :: _ => forallb (λ item, bool_decide (out0 = item)) out
  end.

Definition boolean_intersection (entities : list Entity) : M Entity :=
  e0 <- first entities ;;
  ent <- for_fold (tail entities) (dim_tags e0)
           (λ ent e,
              out <- kernel_call
                       (gmsh.model_occ_intersect [ent] [dim_tags e] true true) ;;
              assert (all_equal_first out) InconsistentBooleanResult ;;;
              first out) ;;
  ret (Boolean [ent] "Intersection").

Definition boolean_union (entities : list Entity) : M Entity :=
  e0 <- first entities ;;
  out <- kernel_call
           (gmsh.model_occ_fuse [dim_tags e0] (map dim_tags (tail entities))
              true true) ;;
  ret (Boolean out "Union").

Definition boolean_difference (d0 d1 : Entity) : M Entity :=
  print d0 ;;;
  print d1 ;;;
  out <- kernel_call (gmsh.model_occ_cut (dim_tags d0) (dim_tags d1)) ;;
  assert (bool_decide (length out = 1%nat)) InconsistentBooleanResult ;;;
  ret (Boolean out "Difference").

(** The N-ary intersection in the spec's words, to compare
    [boolean_intersection] with: "start with the first operand's
    dim-tag(s); for each subsequent operand, intersect the running result
    against it (always deleting both operand sets of that step), and
    require the kernel to return a single uniform dim-tag group at every
    step".  [pairwise_fold history running operands calls result]: from a
    kernel with the given call history and the running result [running],
    folding over [operands] makes exactly the kernel calls [calls] and
    ends with [result]. *)
Inductive pairwise_fold :
  list gmsh.call → DimTag → list Entity → list gmsh.call → DimTag → Prop :=
| pairwise_fold_done history running :
    pairwise_fold history running [] [] running
| pairwise_fold_step history running e operands group groups calls result :
    gmsh.reply history (gmsh.model_occ_intersect [running] [dim_tags e] true true)
      = Some (group :: groups) →
    Forall (λ item, item = group) groups →
    pairwise_fold
      (history ++ [gmsh.model_occ_intersect [running] [dim_tags e] true true])
      group operands calls result →
    pairwise_fold history running (e :: operands)
      (gmsh.model_occ_intersect [running] [dim_tags e] true true :: calls) result.

(** *** A client making several calls on one model *)

Inductive Op :=
| Fragments (input_entities tool_entities : list Entity)
            (delete_first delete_other : bool)
| Intersection (entities : list Entity)
| Union (entities : list Entity)
| Difference (d0 d1 : Entity).

Definition run_op (o : Op) : M Entity :=
  match o with
  | Fragments i t df do => boolean_fragments i t df do
  | Intersection es => boolean_intersection es
  | Union es => boolean_union es
  | Difference d0 d1 => boolean_difference d0 d1
  end.

(** The calls are made in order on the same model; an exception ends the
    call that raised it, not the client. *)
Fixpoint run_ops (ops : list Op) (w : World) : World * list (Outcome Entity) :=
  match ops with
  | [] => (w, [])
  | o :: ops' =>
      let (w1, r) := run_op o w in
      let (w2, rs) := run_ops ops' w1 in
      (w2, r :: rs)
  end.

Definition is_script (o : Op) : bool :=
  match o with
  | Fragments _ _ _ _ => true
  | _ => false
  end.

(** How many of the calls go through [_boolean_operation]. *)
Fixpoint script_calls (ops : list Op) : Z :=
  match ops with
  | [] => 0
  | o :: ops' => (if is_script o then 1 else 0) + script_calls ops'
  end.

End GeometryMethods.

(** ** Auxiliary definitions for the proofs *)

Section Auxiliary.
Context {attributes : Attributes}.

(** A computation that leaves every attribute of [self] as it was: the
    six queues, the boolean id counter and the command stream. *)
Definition keeps_self {A} (m : M A) : Prop :=
  ∀ w, self (m w).1 = self w.

(** The model once the first statement of [_boolean_operation] has run on a
    counter holding [n]. *)
Definition counted (n : Z) (w : World) : World :=
  set_self (set_BOOLEAN_ID (n + 1) (self w)) w.

(** The statements of [_boolean_operation] that follow the two validation
    steps, for the dimension [dim] the first step found. *)
Definition emit (operation : string) (input_entities tool_entities : list Entity)
    (delete_first delete_other : bool) (dim : Z) : M Entity :=
  boolean_id <- get_BOOLEAN_ID ;;
  let name := "bo" +:+ pretty boolean_id in
  let input_delete := if delete_first then "Delete;" else "" in
  let tool_delete := if delete_other then "Delete;" else "" in
  legal_dim_type <- getitem legal_dim_types dim ;;
  let formatted_input_entities := formatted_entities legal_dim_type input_entities in
  let formatted_tool_entities := formatted_entities legal_dim_type tool_entities in
  GMSH_CODE_append
    (command name operation formatted_input_entities input_delete
       formatted_tool_entities tool_delete) ;;;
  key <- getitem legal_dim_types dim ;;
  cls <- getitem mapping key ;;
  match cls with
  | Some new => ret (new name true)
  | None => raise TypeError
  end.

(** The first operand whose dimension is not [dim], if there is one. *)
Definition first_mismatch (dim : Z) (entities : list Entity) : option Entity :=
  find (λ e, negb (bool_decide (dimension e = dim))) entities.

(** The dimension names of [legal_dim_types]. *)
Definition legal_dim_type_of (dim : Z) : string :=
  if decide (dim = 1) then "Line"
  else if decide (dim = 2) then "Surface"
  else "Volume".

End Auxiliary.

(** ** A client using every method of the class *)

Section Clients.
Context {attributes : Attributes} {kernel : gmsh.Kernel}.

(** One call to a public method of [Geometry], with its arguments. *)
Inductive Call :=
| Add_rectangle (args : list Param) (mesh_size : option Param)
                (kwargs : list (string * Param))
| Add_disk (args : list Param) (mesh_size : option Param)
           (kwargs : list (string * Param))
| Add_ball (args : list Param) (mesh_size : option Param)
           (kwargs : list (string * Param))
| Add_box (args : list Param) (mesh_size : option Param)
          (kwargs : list (string * Param))
| Add_cone (args : list Param) (mesh_size : option Param)
           (kwargs : list (string * Param))
| Add_cylinder (args : list Param) (kwargs : list (string * Param))
| Add_ellipsoid (args : list Param) (kwargs : list (string * Param))
| Add_torus (args : list Param) (kwargs : list (string * Param))
| Add_wedge (args : list Param) (kwargs : list (string * Param))
| Boolean_operation (o : Op)
| Synchronize.

(** What the call returns: the entity of an [add_*] or boolean method,
    [None] for [synchronize]. *)
Definition run_call (c : Call) : M (option Entity) :=
  match c with
  | Add_rectangle args m kwargs => e <- add_rectangle args m kwargs ;; ret (Some e)
  | Add_disk args m kwargs => e <- add_disk args m kwargs ;; ret (Some e)
  | Add_ball args m kwargs => e <- add_ball args m kwargs ;; ret (Some e)
  | Add_box args m kwargs => e <- add_box args m kwargs ;; ret (Some e)
  | Add_cone args m kwargs => e <- add_cone args m kwargs ;; ret (Some e)
  | Add_cylinder args kwargs => e <- add_cylinder args kwargs ;; ret (Some e)
  | Add_ellipsoid args kwargs => e <- add_ellipsoid args kwargs ;; ret (Some e)
  | Add_torus args kwargs => e <- add_torus args kwargs ;; ret (Some e)
  | Add_wedge args kwargs => e <- add_wedge args kwargs ;; ret (Some e)
  | Boolean_operation o => e <- run_op o ;; ret (Some e)
  | Synchronize => synchronize ;;; ret None
  end.

(** The calls are made in order on the same model; an exception ends the
    call that raised it, not the client. *)
Fixpoint run_calls (cs : list Call) (w : World)
  : World * list (Outcome (option Entity)) :=
  match cs with
  | [] => (w, [])
  | c :: cs' =>
      let (w1, r) := run_call c w in
      let (w2, rs) := run_calls cs' w1 in
      (w2, r :: rs)
  end.

(** The size-queue entry a call asks for, if it asks for one. *)
Definition size_entry (c : Call) : list (Entity * Param) :=
  match c with
  | Add_rectangle args (Some m) kwargs => [(Primitive Rectangle args kwargs, m)]
  | Add_disk args (Some m) kwargs => [(Primitive Disk args kwargs, m)]
  | Add_ball args (Some m) kwargs => [(Primitive Ball args kwargs, m)]
  | Add_box args (Some m) kwargs => [(Primitive Box args kwargs, m)]
  | Add_cone args (Some m) kwargs => [(Primitive Cone args kwargs, m)]
  | _ => []
  end.

(** The calls that read [_BOOLEAN_ID] or [_GMSH_CODE]. *)
Definition uses_command_stream (c : Call) : bool :=
  match c with
  | Add_cylinder _ _ | Add_ellipsoid _ _ | Add_torus _ _ | Add_wedge _ _ => true
  | Boolean_operation o => is_script o
  | _ => false
  end.

(** The six queues other than the size queue. *)
Definition other_queues (g : Geometry) :=
  (_AFTER_SYNC_QUEUE g, _EMBED_QUEUE g, _COMPOUND_ENTITIES g,
   _RECOMBINE_ENTITIES g, _TRANSFINITE_CURVE_QUEUE g,
   _TRANSFINITE_SURFACE_QUEUE g).

(** The [id0] an entity was built with, for the two composites that have
    one. *)
Definition id0_of (e : Entity) : option string :=
  match e with
  | SurfaceBase id0 _ | VolumeBase id0 _ => Some id0
  | _ => None
  end.

(** The kernel calls [__init__] makes for its two optional arguments. *)
Definition option_calls (characteristic_length_min characteristic_length_max : option Param)
  : list gmsh.call :=
  match characteristic_length_min with
  | Some v => [gmsh.option_setNumber "Mesh.CharacteristicLengthMin" v]
  | None => []
  end ++
  match characteristic_length_max with
  | Some v => [gmsh.option_setNumber "Mesh.CharacteristicLengthMax" v]
  | None => []
  end.

(** An [intersect] call as [boolean_intersection] makes them: one object,
    one tool, both removed. *)
Definition is_pairwise_intersect (c : gmsh.call) : Prop :=
  ∃ object tool, c = gmsh.model_occ_intersect [object] [tool] true true.

End Clients.

(** ** Fixtures: one implementation of the interfaces, to run the model on *)

Module Mock.

(** Dimension by shape kind: 2 for the planar shapes, 3 for the solids; a
    composite built from dim-tags has the dimension of its first tag. *)
Definition shape_dimension (s : Shape) : Z :=
  match s with
  | Rectangle | Disk => 2
  | _ => 3
  end.

(** The kernel tag of a fixture primitive is read off its first argument. *)
Definition tag_of (args : list Param) : Z :=
  match args with
  | Num q :: _ => Qnum q
  | _ => 0
  end.

Definition attributes : Attributes :=
  {| dimension e :=
       match e with
       | Primitive s _ _ => shape_dimension s
       | SurfaceBase _ _ => 2
       | VolumeBase _ _ => 3
       | Boolean ((d, _) :: _) _ => d
       | Boolean [] _ => 0
       end;
     id e :=
       match e with
       | Primitive _ args _ => IdInt (tag_of args)
       | SurfaceBase n _ | VolumeBase n _ => IdStr n
       | Boolean _ op => IdStr op
       end;
     dim_tags e :=
       match e with
       | Primitive s args _ => (shape_dimension s, tag_of args)
       | SurfaceBase _ _ => (2, 0)
       | VolumeBase _ _ => (3, 0)
       | Boolean (t :: _) _ => t
       | Boolean [] _ => (0, 0)
       end;
     code e := "" |}.

(** A kernel that answers every call with the same list of dim-tags. *)
Definition kernel (out : list DimTag) : gmsh.Kernel := λ _ _, Some out.

(** Its answer is one group, the same group twice, two different groups. *)
Definition one_group : gmsh.Kernel := kernel [(3, 7)].
Definition repeated_group : gmsh.Kernel := kernel [(3, 7); (3, 7)].
Definition two_groups : gmsh.Kernel := kernel [(3, 7); (3, 8)].

(** Its answer is no group at all. *)
Definition no_group : gmsh.Kernel := kernel [].

(** A kernel that raises on every call. *)
Definition broken_kernel : gmsh.Kernel := λ _ _, None.

Definition rectangle (tag : Z) : Entity := Primitive Rectangle [Num (tag # 1)] [].
Definition disk (tag : Z) : Entity := Primitive Disk [Num (tag # 1)] [].
Definition box (tag : Z) : Entity := Primitive Box [Num (tag # 1)] [].
Definition ball (tag : Z) : Entity := Primitive Ball [Num (tag # 1)] [].
Definition point (tag : Z) : Entity := Boolean [(0, tag)] "Point".
Definition curve (tag : Z) : Entity := Boolean [(1, tag)] "Curve".

(** A model as [__init__] leaves it, and one on which the two attributes
    [__init__] does not create have been set from outside. *)
Definition fresh : World :=
  {| self := new_Geometry; kernel_log := [gmsh.initialize]; stdout := [] |}.

Definition patched (boolean_id : Z) : World :=
  set_self (set_GMSH_CODE [] (set_BOOLEAN_ID boolean_id new_Geometry)) fresh.

(** Three calls on one model: a fragments call, a union, and a second
    fragments call. *)
Definition three_calls : list Op :=
  [Fragments [rectangle 1] [disk 2] true true;
   Union [rectangle 3; rectangle 4];
   Fragments [box 5; box 6] [] false false].

End Mock.

(** * Properties *)

(** ** The monad *)

Section Frame.
Context {attributes : Attributes} {kernel : gmsh.Kernel}.

Lemma keeps_self_ret {A} (a : A) : keeps_self (ret a).
Proof. by intros w. Qed.

Lemma keeps_self_raise {A} (e : Exception) : keeps_self (raise (A := A) e).
Proof. by intros w. Qed.

Lemma keeps_self_bind {A B} (m : M A) (k : A → M B) :
  keeps_self m → (∀ a, keeps_self (k a)) → keeps_self (bind m k).
Proof.
  intros Hm Hk w. unfold bind. specialize (Hm w).
  destruct (m w) as [w' [e|a]]; simpl in *; [done|].
  by rewrite Hk.
Qed.

Lemma keeps_self_assert cond a : keeps_self (assert cond a).
Proof. by destruct cond. Qed.

Lemma keeps_self_first {A} (l : list A) : keeps_self (first l).
Proof. by destruct l. Qed.

Lemma keeps_self_print e : keeps_self (print e).
Proof. by intros w. Qed.

Lemma keeps_self_kernel_call c : keeps_self (kernel_call c).
Proof. intros w. unfold kernel_call. by destruct (gmsh.reply _ _). Qed.

Lemma keeps_self_for_fold {A S} (l : list A) (s : S) body :
  (∀ s x, keeps_self (body s x)) → keeps_self (for_fold l s body).
Proof.
  intros Hbody. revert s.
  induction l as [|x l IH]; intros s; simpl.
  - apply keeps_self_ret.
  - apply keeps_self_bind; auto.
Qed.

End Frame.

Create HintDb frame discriminated.
#[export] Hint Resolve keeps_self_ret keeps_self_raise keeps_self_bind
  keeps_self_assert keeps_self_first keeps_self_print keeps_self_kernel_call
  keeps_self_for_fold : frame.

(** Worlds after kernel calls. *)
Lemma logged_logged cs1 cs2 w : logged cs2 (logged cs1 w) = logged (cs1 ++ cs2) w.
Proof. unfold logged. simpl. by rewrite <-(assoc_L (++)). Qed.

Lemma logged_nil w : logged [] w = w.
Proof. destruct w. unfold logged. simpl. by rewrite (right_id_L [] (++)). Qed.

(** ** Direct-kernel operations *)

Section DirectKernel.
Context {attributes : Attributes} {kernel : gmsh.Kernel}.

Lemma keeps_self_boolean_intersection entities :
  keeps_self (boolean_intersection entities).
Proof. unfold boolean_intersection. auto 10 with frame. Qed.

Lemma keeps_self_boolean_union entities :
  keeps_self (boolean_union entities).
Proof. unfold boolean_union. auto 10 with frame. Qed.

Lemma keeps_self_boolean_difference d0 d1 :
  keeps_self (boolean_difference d0 d1).
Proof. unfold boolean_difference. auto 10 with frame. Qed.

(** C10: [boolean_intersection], [boolean_union] and [boolean_difference]
    leave the attributes of the model as they were, whether they return or
    raise: the boolean id counter and each of the deferred-action queues
    (size, transfinite-curve, transfinite-surface, recombine, compound,
    embed, after-sync) are the same before and after the call. *)
Theorem direct_kernel_operations_keep_counter_and_queues (w : World) :
  (∀ entities, self (boolean_intersection entities w).1 = self w) ∧
  (∀ entities, self (boolean_union entities w).1 = self w) ∧
  (∀ d0 d1, self (boolean_difference d0 d1 w).1 = self w).
Proof.
  split_and!; intros.
  - apply keeps_self_boolean_intersection.
  - apply keeps_self_boolean_union.
  - apply keeps_self_boolean_difference.
Qed.

(** C7: on a one-element list [boolean_intersection] makes no kernel call
    (the world, kernel log included, is returned as it was) and returns
    the operand's dim-tag wrapped as an "Intersection" entity. *)
Theorem boolean_intersection_singleton (A : Entity) (w : World) :
  boolean_intersection [A] w = (w, inr (Boolean [dim_tags A] "Intersection")).
Proof. reflexivity. Qed.

(** C8: [boolean_difference] makes one kernel call, the binary cut of
    [d0]'s dim-tags by [d1]'s.  When the kernel returns exactly one group
    the result is that output wrapped as a "Difference" entity; when it
    returns none or several, the call raises the assertion error the spec
    names InconsistentBooleanResult and returns no entity. *)
Theorem boolean_difference_one_cut (d0 d1 : Entity) (w : World) (out : list DimTag) :
  gmsh.reply (kernel_log w) (gmsh.model_occ_cut (dim_tags d0) (dim_tags d1)) = Some out →
  kernel_log (boolean_difference d0 d1 w).1
    = kernel_log w ++ [gmsh.model_occ_cut (dim_tags d0) (dim_tags d1)] ∧
  (length out = 1%nat →
   (boolean_difference d0 d1 w).2 = inr (Boolean out "Difference")) ∧
  (length out ≠ 1%nat →
   (boolean_difference d0 d1 w).2 = inl (AssertionError InconsistentBooleanResult)).
Proof.
  intros Hreply.
  unfold boolean_difference, bind, print, kernel_call; simpl.
  rewrite Hreply; simpl. unfold assert.
  case_bool_decide; simpl; split_and!; done.
Qed.

(** C9: on a list with a first operand, [boolean_union] makes exactly one
    kernel call, a fuse of the first operand's dim-tag against the dim-tags
    of all the others with [removeObject] and [removeTool] both true, and
    returns the kernel's output list, as it is, wrapped as a "Union"
    entity. *)
Theorem boolean_union_one_fuse (e0 : Entity) (rest : list Entity) (w : World)
    (out : list DimTag) :
  gmsh.reply (kernel_log w)
    (gmsh.model_occ_fuse [dim_tags e0] (map dim_tags rest) true true) = Some out →
  boolean_union (e0 :: rest) w
    = (logged [gmsh.model_occ_fuse [dim_tags e0] (map dim_tags rest) true true] w,
       inr (Boolean out "Union")).
Proof.
  intros Hreply.
  unfold boolean_union, bind, kernel_call; simpl.
  by rewrite Hreply.
Qed.

(** Outside that domain: an empty list raises before any kernel call, and
    a kernel error is handed on after the one call. *)
Lemma boolean_union_empty (w : World) :
  boolean_union [] w = (w, inl IndexError).
Proof. reflexivity. Qed.

Lemma boolean_union_kernel_error (e0 : Entity) (rest : list Entity) (w : World) :
  gmsh.reply (kernel_log w)
    (gmsh.model_occ_fuse [dim_tags e0] (map dim_tags rest) true true) = None →
  boolean_union (e0 :: rest) w
    = (logged [gmsh.model_occ_fuse [dim_tags e0] (map dim_tags rest) true true] w,
       inl KernelError).
Proof.
  intros Hreply.
  unfold boolean_union, bind, kernel_call; simpl.
  by rewrite Hreply.
Qed.

(** *** The fold of [boolean_intersection] *)

(** The body of the loop of [boolean_intersection]. *)
Local Abbreviation fold_body :=
  (λ (ent : DimTag) (e : Entity),
     bind (kernel_call (gmsh.model_occ_intersect [ent] [dim_tags e] true true))
       (λ out, bind (assert (all_equal_first out) InconsistentBooleanResult)
                 (λ _, first out))).

Lemma all_equal_first_cons (group : DimTag) (groups : list DimTag) :
  all_equal_first (group :: groups) = true ↔ Forall (λ item, item = group) groups.
Proof.
  simpl. rewrite bool_decide_eq_true_2 by done. simpl.
  rewrite forallb_forall, Forall_forall.
  split; intros Hall item Hin.
  - symmetry. eapply bool_decide_eq_true_1. apply Hall. by apply list_elem_of_In.
  - apply bool_decide_eq_true_2. symmetry. apply Hall. by apply list_elem_of_In.
Qed.

Lemma all_equal_first_false (out : list DimTag) :
  all_equal_first out = false ↔ ∃ item, item ∈ out ∧ head out ≠ Some item.
Proof.
  destruct out as [|group groups].
  - split; [done|]. intros (item & Hin & _). by apply elem_of_nil in Hin.
  - rewrite <-not_true_iff_false, all_equal_first_cons, <-Exists_Forall_neg
      by (intros x; destruct (decide (x = group)); auto).
    rewrite Exists_exists. simpl. split.
    + intros (item & Hin & Hne). exists item. split; [by right|]. congruence.
    + intros (item & Hin & Hne). exists item.
      apply elem_of_cons in Hin as [->|Hin]; [done|]. split; [done|]. congruence.
Qed.

Lemma pairwise_fold_run history running operands calls result :
  pairwise_fold history running operands calls result →
  ∀ w, kernel_log w = history →
    for_fold operands running fold_body w = (logged calls w, inr result).
Proof.
  induction 1 as [history running
                 |history running e operands group groups calls result
                    Hreply Hsame _ IH];
    intros w Hlog; simpl.
  - unfold ret. by rewrite logged_nil.
  - unfold bind at 1. unfold bind at 1. unfold kernel_call.
    rewrite Hlog, Hreply.
    unfold bind, assert.
    rewrite (proj2 (all_equal_first_cons group groups) Hsame). simpl.
    rewrite IH by (simpl; by rewrite Hlog).
    by rewrite logged_logged.
Qed.

Lemma pairwise_fold_calls history running operands calls result :
  pairwise_fold history running operands calls result →
  length calls = length operands ∧
  Forall2 (λ c e, ∃ ent, c = gmsh.model_occ_intersect [ent] [dim_tags e] true true)
    calls operands.
Proof.
  induction 1 as [|history running e operands group groups calls result _ _ _ [IHlen IHall]].
  - split; [done|constructor].
  - split; [simpl; by rewrite IHlen|]. constructor; [by exists running|done].
Qed.

(** Conversely, a fold that ends without raising went through
    [pairwise_fold]. *)
Lemma for_fold_returns operands :
  ∀ running w w' result,
    for_fold operands running fold_body w = (w', inr result) →
    ∃ calls, pairwise_fold (kernel_log w) running operands calls result ∧
             w' = logged calls w.
Proof.
  induction operands as [|e operands IH]; intros running w w' result; simpl.
  - unfold ret. intros [= <- <-]. exists []. split; [constructor|by rewrite logged_nil].
  - unfold bind at 1. unfold bind at 1. unfold kernel_call.
    destruct (gmsh.reply _ _) as [out|] eqn:Hreply; [|done].
    unfold bind at 1. unfold assert.
    destruct (all_equal_first out) eqn:Hall; [|done].
    destruct out as [|group groups]; [done|]. simpl.
    intros Hrest. apply IH in Hrest as (calls & Hfold & ->).
    eexists (_ :: calls). split.
    + econstructor; [done|by apply all_equal_first_cons|done].
    + by rewrite logged_logged.
Qed.

(** C6: when the pairwise fold over [A2 .. An] goes through (each
    step's kernel output is a non-empty list of one repeated dim-tag),
    [boolean_intersection [A1; ..; An]] makes exactly the fold's kernel
    calls, one per operand after the first, hence n-1 of them, each an
    intersect of the running result against the next operand's dim-tag with
    [removeObject] and [removeTool] both true, and returns the last running
    result wrapped as an "Intersection" entity. *)
Theorem boolean_intersection_left_fold (A1 : Entity) (operands : list Entity)
    (w : World) (calls : list gmsh.call) (result : DimTag) :
  pairwise_fold (kernel_log w) (dim_tags A1) operands calls result →
  boolean_intersection (A1 :: operands) w
    = (logged calls w, inr (Boolean [result] "Intersection")) ∧
  length calls = length operands ∧
  Forall2 (λ c e, ∃ ent, c = gmsh.model_occ_intersect [ent] [dim_tags e] true true)
    calls operands.
Proof.
  intros Hfold. split; [|by eapply pairwise_fold_calls].
  unfold boolean_intersection. unfold bind at 1. simpl.
  unfold bind at 1.
  by rewrite (pairwise_fold_run _ _ _ _ _ Hfold w eq_refl).
Qed.

(** The fold going through is also necessary for the call to return. *)
Lemma boolean_intersection_returns (A1 : Entity) (operands : list Entity)
    (w w' : World) (r : Entity) :
  boolean_intersection (A1 :: operands) w = (w', inr r) →
  ∃ calls result,
    pairwise_fold (kernel_log w) (dim_tags A1) operands calls result ∧
    w' = logged calls w ∧ r = Boolean [result] "Intersection".
Proof.
  unfold boolean_intersection. unfold bind at 1. simpl. unfold bind at 1.
  destruct (for_fold _ _ _ w) as [w1 [e|result]] eqn:Hrun; [done|].
  unfold ret. intros [= <- <-].
  apply for_fold_returns in Hrun as (calls & Hfold & ->). eauto.
Qed.

(** C5, as the code has it: if the fold goes through for the operands
    [before] and the kernel's output at the next step holds an item that
    differs from its first one, [boolean_intersection] raises the assertion
    error the spec names InconsistentBooleanResult; the kernel calls made
    are those of the steps up to and including that one, and none for the
    operands [after]. *)
Theorem boolean_intersection_stops_at_mixed_output (A1 e : Entity)
    (before after : list Entity) (w : World) (calls : list gmsh.call)
    (running : DimTag) (out : list DimTag) :
  pairwise_fold (kernel_log w) (dim_tags A1) before calls running →
  gmsh.reply (kernel_log w ++ calls)
    (gmsh.model_occ_intersect [running] [dim_tags e] true true) = Some out →
  (∃ item, item ∈ out ∧ head out ≠ Some item) →
  boolean_intersection (A1 :: before ++ e :: after) w
    = (logged (calls ++ [gmsh.model_occ_intersect [running] [dim_tags e] true true]) w,
       inl (AssertionError InconsistentBooleanResult)).
Proof.
  intros Hfold Hreply Hmixed.
  apply all_equal_first_false in Hmixed.
  unfold boolean_intersection. unfold bind at 1. simpl. unfold bind at 1.
  cut (∀ history ent, pairwise_fold history ent before calls running →
         ∀ w0, kernel_log w0 = history →
           gmsh.reply (history ++ calls)
             (gmsh.model_occ_intersect [running] [dim_tags e] true true) = Some out →
           for_fold (before ++ e :: after) ent fold_body w0
           = (logged (calls ++ [gmsh.model_occ_intersect [running] [dim_tags e] true true]) w0,
              inl (AssertionError InconsistentBooleanResult))).
  { intros Hcut. by rewrite (Hcut _ _ Hfold w eq_refl Hreply). }
  clear Hfold Hreply w.
  induction 1 as [history ent
                 |history ent e' operands group groups calls running
                    Hreply' Hsame _ IH];
    intros w0 Hlog Hreply; simpl.
  - rewrite (right_id_L [] (++)) in Hreply.
    unfold bind at 1. unfold bind at 1. unfold kernel_call.
    rewrite Hlog, Hreply. unfold bind, assert. by rewrite Hmixed.
  - unfold bind at 1. unfold bind at 1. unfold kernel_call.
    rewrite Hlog, Hreply'. unfold bind at 1. unfold assert.
    rewrite (proj2 (all_equal_first_cons group groups) Hsame). simpl.
    rewrite IH.
    + by rewrite logged_logged.
    + simpl. by rewrite Hlog.
    + by rewrite <-(assoc_L (++)).
Qed.

End DirectKernel.

(** ** Boolean operations through the command stream *)

Section ScriptMode.
Context {attributes : Attributes} {kernel : gmsh.Kernel}.

Lemma for_each_assert_dimension (dim : Z) (entities : list Entity) (w : World) :
  for_each entities
    (λ e, assert (bool_decide (dimension e = dim)) (IncompatibleDimension e)) w
  = match first_mismatch dim entities with
    | Some e => (w, inl (AssertionError (IncompatibleDimension e)))
    | None => (w, inr ())
    end.
Proof.
  unfold first_mismatch.
  induction entities as [|e entities IH]; simpl; [done|].
  unfold bind, assert. case_bool_decide; simpl; [apply IH|done].
Qed.

Lemma first_mismatch_None (dim : Z) (entities : list Entity) :
  first_mismatch dim entities = None ↔ Forall (λ e, dimension e = dim) entities.
Proof.
  unfold first_mismatch. rewrite Forall_forall. split.
  - intros Hnone e Hin. apply list_elem_of_In in Hin.
    eapply find_none in Hnone; [|done].
    apply negb_false_iff in Hnone. by apply bool_decide_eq_true_1 in Hnone.
  - intros Hall. destruct (find _ _) as [e|] eqn:Hfind; [|done].
    apply find_some in Hfind as [Hin Hne].
    apply negb_true_iff, bool_decide_eq_false_1 in Hne.
    destruct Hne. apply Hall. by apply list_elem_of_In.
Qed.

Lemma first_mismatch_Some (dim : Z) (entities : list Entity) (e : Entity) :
  first_mismatch dim entities = Some e → e ∈ entities ∧ dimension e ≠ dim.
Proof.
  unfold first_mismatch. intros Hfind.
  apply find_some in Hfind as [Hin Hne].
  apply negb_true_iff, bool_decide_eq_false_1 in Hne.
  split; [by apply list_elem_of_In|done].
Qed.

(** [_boolean_operation] stage by stage, on a model whose counter exists. *)
Lemma _boolean_operation_stages operation input_entities tool_entities
    delete_first delete_other (w : World) (n : Z) :
  _BOOLEAN_ID (self w) = Some n →
  _boolean_operation operation input_entities tool_entities
    delete_first delete_other w
  = match input_entities with
    | [] => (counted n w, inl IndexError)
    | e0 :: rest =>
        if decide (dimension e0 ∈ [1; 2; 3]) then
          match first_mismatch (dimension e0) (rest ++ tool_entities) with
          | Some e => (counted n w, inl (AssertionError (IncompatibleDimension e)))
          | None =>
              emit operation input_entities tool_entities
                delete_first delete_other (dimension e0) (counted n w)
          end
        else (counted n w, inl (AssertionError (IllegalDimension e0)))
    end.
Proof.
  intros Hid.
  unfold _boolean_operation. unfold bind at 1. unfold get_BOOLEAN_ID at 1.
  rewrite Hid. unfold bind at 1. unfold put_BOOLEAN_ID. fold (counted n w).
  destruct input_entities as [|e0 rest]; [done|].
  unfold bind at 1. unfold first at 1, ret at 1. unfold bind at 1.
  simpl find. simpl tail.
  assert (Hcases : dimension e0 = 1 ∨ dimension e0 = 2 ∨ dimension e0 = 3
                   ∨ dimension e0 ∉ [1; 2; 3]).
  { destruct (decide (dimension e0 = 1)); [auto|].
    destruct (decide (dimension e0 = 2)); [auto|].
    destruct (decide (dimension e0 = 3)); [auto|].
    do 3 right. rewrite !elem_of_cons, elem_of_nil. tauto. }
  destruct Hcases as [Hd|[Hd|[Hd|Hd]]].
  1-3: rewrite Hd; rewrite decide_True by (rewrite !elem_of_cons; auto);
       match goal with
       | |- context [find ?f ?l] =>
           let r := eval vm_compute in (find f l) in change (find f l) with r
       end;
       unfold ret at 1; unfold bind at 1;
       rewrite for_each_assert_dimension;
       destruct (first_mismatch _ _); reflexivity.
  rewrite decide_False by done.
  rewrite !elem_of_cons, elem_of_nil in Hd.
  unfold legal_dim_types. cbn [find map fst].
  repeat (case_bool_decide; [tauto|]). reflexivity.
Qed.

(** What [emit] does for a legal dimension, on a model whose counter
    holds [m]. *)
Lemma emit_outcome operation input_entities tool_entities delete_first delete_other
    (dim : Z) (w : World) (m : Z) :
  _BOOLEAN_ID (self w) = Some m →
  dim ∈ [1; 2; 3] →
  emit operation input_entities tool_entities delete_first delete_other dim w
  = match _GMSH_CODE (self w) with
    | None => (w, inl (AttributeError "_GMSH_CODE"))
    | Some c =>
        (set_self
           (set_GMSH_CODE
              (c ++ [command ("bo" +:+ pretty m) operation
                       (formatted_entities (legal_dim_type_of dim) input_entities)
                       (if delete_first then "Delete;" else "")
                       (formatted_entities (legal_dim_type_of dim) tool_entities)
                       (if delete_other then "Delete;" else "")])
              (self w)) w,
         if decide (dim = 2) then inr (SurfaceBase ("bo" +:+ pretty m) true)
         else if decide (dim = 3) then inr (VolumeBase ("bo" +:+ pretty m) true)
         else inl TypeError)
    end.
Proof.
  intros Hid Hdim.
  unfold emit. unfold bind at 1. unfold get_BOOLEAN_ID. rewrite Hid.
  rewrite !elem_of_cons, elem_of_nil in Hdim.
  destruct Hdim as [->|[->|[->|[]]]];
    unfold bind at 1; simpl getitem; unfold ret at 1;
    unfold bind at 1; unfold GMSH_CODE_append; unfold bind at 1;
    unfold get_GMSH_CODE; destruct (_GMSH_CODE (self w)); reflexivity.
Qed.

(** Past the two checks no assertion is left to fail, and the counter is
    not written again. *)
Lemma emit_not_assertion operation input_entities tool_entities delete_first
    delete_other (dim : Z) (w : World) (m : Z) (a : Assertion) :
  _BOOLEAN_ID (self w) = Some m →
  dim ∈ [1; 2; 3] →
  (emit operation input_entities tool_entities delete_first delete_other dim w).2
  ≠ inl (AssertionError a).
Proof.
  intros Hid Hdim. rewrite (emit_outcome _ _ _ _ _ _ _ m) by done.
  destruct (_GMSH_CODE (self w)); simpl; [|done]. by repeat case_decide.
Qed.

(** Every call advances the counter by one, whatever else happens. *)
Lemma _boolean_operation_counter operation input_entities tool_entities
    delete_first delete_other (w : World) (n : Z) :
  _BOOLEAN_ID (self w) = Some n →
  _BOOLEAN_ID (self (_boolean_operation operation input_entities tool_entities
                       delete_first delete_other w).1) = Some (n + 1).
Proof.
  intros Hid. rewrite (_boolean_operation_stages _ _ _ _ _ _ _ Hid).
  destruct input_entities as [|e0 rest]; [done|].
  case_decide; [|done].
  destruct (first_mismatch _ _); [done|].
  rewrite (emit_outcome _ _ _ _ _ _ _ (n + 1)) by done.
  simpl. by destruct (_GMSH_CODE (self w)).
Qed.

(** A call that returns was made on operands of dimension 2 or 3, and
    returns the composite of that dimension named after the new value of
    the counter. *)
Lemma _boolean_operation_returns operation input_entities tool_entities
    delete_first delete_other (w : World) (n : Z) (r : Entity) :
  _BOOLEAN_ID (self w) = Some n →
  (_boolean_operation operation input_entities tool_entities
     delete_first delete_other w).2 = inr r →
  ∃ e0, head input_entities = Some e0 ∧
    (dimension e0 = 2 ∧ r = SurfaceBase ("bo" +:+ pretty (n + 1)) true ∨
     dimension e0 = 3 ∧ r = VolumeBase ("bo" +:+ pretty (n + 1)) true).
Proof.
  intros Hid. rewrite (_boolean_operation_stages _ _ _ _ _ _ _ Hid).
  destruct input_entities as [|e0 rest]; [done|].
  case_decide; [|done].
  destruct (first_mismatch _ _); [done|].
  rewrite (emit_outcome _ _ _ _ _ _ _ (n + 1)) by done.
  simpl. destruct (_GMSH_CODE (self w)); [|done]. simpl.
  repeat case_decide; [| |done]; intros [= <-]; exists e0; auto.
Qed.

(** X2: when a call returns: the counter and the command stream exist, the
    first input has dimension 2 or 3 and every other operand has the same.
    The model then holds the new counter and one more command, the one
    that names the output [bo<n+1>], lists the inputs and then the tools
    under the type name of their dimension, each group followed by its
    delete flag; the entity returned is the composite of that dimension
    under the same name. *)
Lemma _boolean_operation_success operation (e0 : Entity) (rest tool_entities : list Entity)
    delete_first delete_other (w : World) (n : Z) (c : list string) :
  _BOOLEAN_ID (self w) = Some n →
  _GMSH_CODE (self w) = Some c →
  dimension e0 = 2 ∨ dimension e0 = 3 →
  Forall (λ e, dimension e = dimension e0) (rest ++ tool_entities) →
  _boolean_operation operation (e0 :: rest) tool_entities delete_first delete_other w
  = (set_self
       (set_GMSH_CODE
          (c ++ [command ("bo" +:+ pretty (n + 1)) operation
                   (formatted_entities (legal_dim_type_of (dimension e0)) (e0 :: rest))
                   (if delete_first then "Delete;" else "")
                   (formatted_entities (legal_dim_type_of (dimension e0)) tool_entities)
                   (if delete_other then "Delete;" else "")])
          (set_BOOLEAN_ID (n + 1) (self w))) w,
     inr ((if decide (dimension e0 = 2) then SurfaceBase else VolumeBase)
            ("bo" +:+ pretty (n + 1)) true)).
Proof.
  intros Hid Hcode Hdim Hall.
  rewrite (_boolean_operation_stages _ _ _ _ _ _ _ Hid).
  rewrite decide_True by (rewrite !elem_of_cons; tauto).
  rewrite (proj2 (first_mismatch_None _ _) Hall).
  rewrite (emit_outcome _ _ _ _ _ _ _ (n + 1)) by (done || rewrite !elem_of_cons; tauto).
  simpl. rewrite Hcode.
  destruct Hdim as [Hd|Hd]; rewrite Hd; reflexivity.
Qed.

(** C1, as the code has it: a call to [_boolean_operation] that fails one
    of the two dimension checks leaves every queue, the command stream, the
    kernel log and the output as they were, but has advanced the boolean id
    counter by one: the counter is incremented by the first statement, ahead
    of the checks. *)
Theorem failed_validation_only_advances_counter operation input_entities
    tool_entities delete_first delete_other (w : World) (a : Assertion) :
  (_boolean_operation operation input_entities tool_entities
     delete_first delete_other w).2 = inl (AssertionError a) →
  ∃ n, _BOOLEAN_ID (self w) = Some n ∧
       (_boolean_operation operation input_entities tool_entities
          delete_first delete_other w).1
       = set_self (set_BOOLEAN_ID (n + 1) (self w)) w.
Proof.
  destruct (_BOOLEAN_ID (self w)) as [n|] eqn:Hid.
  - rewrite (_boolean_operation_stages _ _ _ _ _ _ _ Hid).
    intros Hfail. exists n. split; [done|]. revert Hfail.
    destruct input_entities as [|e0 rest]; [done|].
    case_decide; [|done].
    destruct (first_mismatch _ _); [done|].
    rewrite (emit_outcome _ _ _ _ _ _ _ (n + 1)) by done.
    simpl. destruct (_GMSH_CODE (self w)); [|done]. simpl.
    by repeat case_decide.
  - unfold _boolean_operation. unfold bind at 1. unfold get_BOOLEAN_ID.
    by rewrite Hid.
Qed.

(** X1: the two checks, on a model whose counter exists and for a list of
    inputs with a first entity.  The call fails on the first check exactly
    when the first input's dimension is none of 1, 2, 3; it fails on the
    second exactly when that dimension is legal and some other input or some
    tool has a different one; and no assertion fails exactly when it is
    legal and shared by all. *)
Lemma dimension_validation operation (e0 : Entity) (rest tool_entities : list Entity)
    delete_first delete_other (w : World) (n : Z) :
  _BOOLEAN_ID (self w) = Some n →
  let r := (_boolean_operation operation (e0 :: rest) tool_entities
              delete_first delete_other w).2 in
  (r = inl (AssertionError (IllegalDimension e0)) ↔ dimension e0 ∉ [1; 2; 3]) ∧
  ((∃ e, r = inl (AssertionError (IncompatibleDimension e))) ↔
     dimension e0 ∈ [1; 2; 3] ∧
     Exists (λ e, dimension e ≠ dimension e0) (rest ++ tool_entities)) ∧
  ((∀ a, r ≠ inl (AssertionError a)) ↔
     dimension e0 ∈ [1; 2; 3] ∧
     Forall (λ e, dimension e = dimension e0) (rest ++ tool_entities)).
Proof.
  intros Hid r. subst r.
  rewrite (_boolean_operation_stages _ _ _ _ _ _ _ Hid).
  case_decide as Hlegal.
  - destruct (first_mismatch _ _) as [e|] eqn:Hmis.
    + apply first_mismatch_Some in Hmis as [Hin Hne]. simpl.
      assert (Hex : Exists (λ e, dimension e ≠ dimension e0) (rest ++ tool_entities)).
      { apply Exists_exists. by exists e. }
      split_and!; split; try done; eauto.
      * intros Hno. by destruct (Hno (IncompatibleDimension e)).
      * intros [_ Hall]. rewrite Forall_forall in Hall.
        destruct Hne. by apply Hall.
    + apply first_mismatch_None in Hmis.
      assert (Hnot : ∀ a,
        (emit operation (e0 :: rest) tool_entities delete_first delete_other
           (dimension e0) (counted n w)).2 ≠ inl (AssertionError a)).
      { intros a. by apply (emit_not_assertion _ _ _ _ _ _ _ (n + 1)). }
      split_and!; split; try done.
      * intros Heq. by destruct (Hnot _ Heq).
      * intros [e Heq]. by destruct (Hnot _ Heq).
      * intros [_ Hex]. apply Exists_exists in Hex as (e & Hin & Hne).
        rewrite Forall_forall in Hmis. destruct Hne. by apply Hmis.
  - simpl. split_and!; split; try done.
    + intros [e He]. done.
    + by intros [? _].
    + intros Hno. by destruct (Hno (IllegalDimension e0)).
    + by intros [? _].
Qed.

(** *** A model as [__init__] leaves it *)

Lemma self_after_init clmin clmax (w0 : World) :
  self (__init__ clmin clmax w0).1 = new_Geometry.
Proof.
  unfold __init__. unfold bind at 1.
  match goal with
  | |- self (?m ?w1).1 = _ => assert (Hk : keeps_self m); [|by rewrite Hk]
  end.
  apply keeps_self_bind; [auto with frame|]. intros _.
  apply keeps_self_bind.
  - destruct clmin; auto with frame.
  - intros _. destruct clmax; auto with frame.
Qed.

(** C4, evaluated on the code: on a model that [__init__] has just set up,
    whatever the arguments of the constructor and the kernel's answers,
    [_boolean_operation] raises AttributeError for [_BOOLEAN_ID] on its
    first statement, for every list of inputs and tools; neither dimension
    check is reached. *)
Theorem _boolean_operation_after_init clmin clmax (w0 : World) operation
    input_entities tool_entities delete_first delete_other :
  _boolean_operation operation input_entities tool_entities
    delete_first delete_other (__init__ clmin clmax w0).1
  = ((__init__ clmin clmax w0).1, inl (AttributeError "_BOOLEAN_ID")).
Proof.
  unfold _boolean_operation. unfold bind at 1. unfold get_BOOLEAN_ID.
  by rewrite self_after_init.
Qed.

(** *** Sequences of calls *)

Lemma script_calls_app (ops1 ops2 : list Op) :
  script_calls (ops1 ++ ops2) = script_calls ops1 + script_calls ops2.
Proof. induction ops1 as [|o ops1 IH]; simpl; lia. Qed.

Lemma script_calls_nonneg (ops : list Op) : (0 ≤ script_calls ops)%Z.
Proof. induction ops as [|[] ops IH]; simpl; lia. Qed.

Lemma script_calls_take_le (ops : list Op) (j k : nat) :
  (j ≤ k)%nat → (script_calls (take j ops) ≤ script_calls (take k ops))%Z.
Proof.
  intros Hle. replace k with (j + (k - j))%nat by lia.
  rewrite <-take_take_drop, script_calls_app.
  pose proof (script_calls_nonneg (take (k - j) (drop j ops))). lia.
Qed.

Lemma script_calls_take_S (ops : list Op) (k : nat) (o : Op) :
  ops !! k = Some o →
  script_calls (take (S k) ops)
  = script_calls (take k ops) + (if is_script o then 1 else 0).
Proof.
  intros Hk. rewrite (take_S_r _ _ _ Hk), script_calls_app. simpl. lia.
Qed.

Lemma run_op_counter (o : Op) (w : World) (n : Z) :
  _BOOLEAN_ID (self w) = Some n →
  _BOOLEAN_ID (self (run_op o w).1) = Some (n + (if is_script o then 1 else 0)).
Proof.
  intros Hid. destruct o as [i t df do|es|es|d0 d1]; simpl.
  - by apply _boolean_operation_counter.
  - rewrite keeps_self_boolean_intersection, Hid. f_equal. lia.
  - rewrite keeps_self_boolean_union, Hid. f_equal. lia.
  - rewrite keeps_self_boolean_difference, Hid. f_equal. lia.
Qed.

(** C2, as the code has it: on a model whose boolean id counter holds [n],
    every call to the script-mode operation advances the counter by one,
    whether or not it succeeds, and the direct-kernel operations do not
    touch it.  So after a sequence of calls the counter holds [n] plus the
    number of script-mode calls; a script-mode call that returns is named
    [bo<N>], [N] being [n] plus the number of script-mode calls made up to
    and including it, and returns a [SurfaceBase] for dimension 2 and a
    [VolumeBase] for dimension 3, built with [is_list = True]; and these
    numbers grow strictly along the sequence. *)
Theorem boolean_ids_follow_script_calls (ops : list Op) (w : World) (n : Z) :
  _BOOLEAN_ID (self w) = Some n →
  _BOOLEAN_ID (self (run_ops ops w).1) = Some (n + script_calls ops) ∧
  (∀ k i t df do r,
     ops !! k = Some (Fragments i t df do) →
     (run_ops ops w).2 !! k = Some (inr r) →
     ∃ e0, head i = Some e0 ∧
       (dimension e0 = 2 ∧
        r = SurfaceBase ("bo" +:+ pretty (n + script_calls (take (S k) ops))) true ∨
        dimension e0 = 3 ∧
        r = VolumeBase ("bo" +:+ pretty (n + script_calls (take (S k) ops))) true)) ∧
  (∀ j k o,
     (j < k)%nat → ops !! k = Some o → is_script o = true →
     (n + script_calls (take (S j) ops) < n + script_calls (take (S k) ops))%Z).
Proof.
  intros Hid. split_and!.
  - revert w n Hid. induction ops as [|o ops IH]; intros w n Hid; simpl.
    + rewrite Hid. f_equal. lia.
    + pose proof (run_op_counter o w n Hid) as Hstep.
      destruct (run_op o w) as [w1 r1]. simpl in Hstep.
      specialize (IH w1 _ Hstep).
      destruct (run_ops ops w1) as [w2 rs]. simpl in *.
      rewrite IH. f_equal. lia.
  - revert w n Hid. induction ops as [|o ops IH]; intros w n Hid k i t df do r Hk Hr.
    + by rewrite lookup_nil in Hk.
    + simpl in Hr.
      pose proof (run_op_counter o w n Hid) as Hstep.
      destruct (run_op o w) as [w1 r1] eqn:Hrun. simpl in Hstep.
      specialize (IH w1 _ Hstep).
      destruct (run_ops ops w1) as [w2 rs] eqn:Hrest. simpl in Hr.
      destruct k as [|k]; simpl in Hk, Hr.
      * injection Hk as ->. injection Hr as ->. simpl in Hrun.
        unfold boolean_fragments in Hrun.
        pose proof (_boolean_operation_returns "BooleanFragments" i t df do w n r Hid)
          as Hret.
        rewrite Hrun in Hret. specialize (Hret eq_refl).
        simpl. rewrite ?take_0. simpl.
        by replace (n + (1 + 0)) with (n + 1) by lia.
      * specialize (IH k i t df do r Hk Hr).
        change (take (S (S k)) (o :: ops)) with (o :: take (S k) ops).
        simpl script_calls.
        by replace (n + ((if is_script o then 1 else 0) + script_calls (take (S k) ops)))
          with (n + (if is_script o then 1 else 0) + script_calls (take (S k) ops))
          by lia.
  - intros j k o Hjk Hk Hscript.
    rewrite (script_calls_take_S _ _ _ Hk), Hscript.
    pose proof (script_calls_take_le ops (S j) k ltac:(lia)). lia.
Qed.

End ScriptMode.

(** ** Primitives *)

Section Primitives.
Context {attributes : Attributes}.

(** The five methods that take [mesh_size]: given one, they return the new
    entity and the only change to the model is the pair appended to the size
    queue; the kernel log is as it was. *)
Lemma add_with_mesh_size (args : list Param) (m : Param)
    (kwargs : list (string * Param)) (w : World) :
  let queued e :=
    (set_self (set_SIZE_QUEUE (_SIZE_QUEUE (self w) ++ [(e, m)]) (self w)) w,
     inr (B := Entity) e) in
  add_rectangle args (Some m) kwargs w = queued (Primitive Rectangle args kwargs) ∧
  add_disk args (Some m) kwargs w = queued (Primitive Disk args kwargs) ∧
  add_ball args (Some m) kwargs w = queued (Primitive Ball args kwargs) ∧
  add_box args (Some m) kwargs w = queued (Primitive Box args kwargs) ∧
  add_cone args (Some m) kwargs w = queued (Primitive Cone args kwargs).
Proof. by split_and!. Qed.

Lemma add_without_mesh_size (args : list Param)
    (kwargs : list (string * Param)) (w : World) :
  add_rectangle args None kwargs w = (w, inr (Primitive Rectangle args kwargs)) ∧
  add_disk args None kwargs w = (w, inr (Primitive Disk args kwargs)) ∧
  add_ball args None kwargs w = (w, inr (Primitive Ball args kwargs)) ∧
  add_box args None kwargs w = (w, inr (Primitive Box args kwargs)) ∧
  add_cone args None kwargs w = (w, inr (Primitive Cone args kwargs)).
Proof. by split_and!. Qed.

(** C3, evaluated on the code: [add_cylinder], [add_ellipsoid], [add_torus]
    and [add_wedge] never append to the size queue, whatever the keyword
    arguments, a [mesh_size] among them or not: the queue after the call is
    the queue before it. *)
Theorem add_cylinder_ellipsoid_torus_wedge_size_queue (args : list Param)
    (kwargs : list (string * Param)) (w : World) :
  _SIZE_QUEUE (self (add_cylinder args kwargs w).1) = _SIZE_QUEUE (self w) ∧
  _SIZE_QUEUE (self (add_ellipsoid args kwargs w).1) = _SIZE_QUEUE (self w) ∧
  _SIZE_QUEUE (self (add_torus args kwargs w).1) = _SIZE_QUEUE (self w) ∧
  _SIZE_QUEUE (self (add_wedge args kwargs w).1) = _SIZE_QUEUE (self w).
Proof.
  unfold add_cylinder, add_ellipsoid, add_torus, add_wedge.
  unfold bind, GMSH_CODE_append, bind, get_GMSH_CODE.
  destruct (_GMSH_CODE (self w)); by split_and!.
Qed.

(** What they do instead: they append the entity's [code] to the command
    stream when the model has one, and raise AttributeError when it has
    none, as on a model that [__init__] has just set up. *)
Lemma add_cylinder_command_stream (args : list Param)
    (kwargs : list (string * Param)) (w : World) :
  add_cylinder args kwargs w
  = match _GMSH_CODE (self w) with
    | Some c =>
        (set_self (set_GMSH_CODE (c ++ [code (Primitive Cylinder args kwargs)]) (self w)) w,
         inr (Primitive Cylinder args kwargs))
    | None => (w, inl (AttributeError "_GMSH_CODE"))
    end.
Proof.
  unfold add_cylinder, bind, GMSH_CODE_append, bind, get_GMSH_CODE.
  by destruct (_GMSH_CODE (self w)).
Qed.

End Primitives.

(** * Runs on the fixtures *)

Section Runs.
Import Mock.

(** A cut that comes back in two groups makes [boolean_difference] fail. *)
Lemma boolean_difference_one_cut_witness :
  gmsh.reply (Kernel := two_groups) (kernel_log fresh)
    (gmsh.model_occ_cut (3, 1) (3, 2)) = Some [(3, 7); (3, 8)] ∧
  kernel_log (@boolean_difference attributes two_groups (box 1) (box 2) fresh).1
    = [gmsh.initialize; gmsh.model_occ_cut (3, 1) (3, 2)] ∧
  (@boolean_difference attributes two_groups (box 1) (box 2) fresh).2
    = inl (AssertionError InconsistentBooleanResult).
Proof.
  split; [reflexivity|].
  destruct (@boolean_difference_one_cut attributes two_groups (box 1) (box 2) fresh
              [(3, 7); (3, 8)] eq_refl) as (Hlog & _ & Hfail).
  split; [exact Hlog|]. apply Hfail. simpl. lia.
Defined.

(** A fuse of three boxes: one call, the output wrapped as it is. *)
Lemma boolean_union_one_fuse_witness :
  gmsh.reply (Kernel := one_group) (kernel_log fresh)
    (gmsh.model_occ_fuse [(3, 1)] [(3, 2); (3, 3)] true true) = Some [(3, 7)] ∧
  @boolean_union attributes one_group [box 1; box 2; box 3] fresh
  = (logged [gmsh.model_occ_fuse [(3, 1)] [(3, 2); (3, 3)] true true] fresh,
     inr (Boolean [(3, 7)] "Union")).
Proof.
  split; [reflexivity|].
  exact (@boolean_union_one_fuse attributes one_group (box 1) [box 2; box 3] fresh
           [(3, 7)] eq_refl).
Defined.

(** Three boxes: two intersect calls, the second on the first one's
    output. *)
Lemma boolean_intersection_left_fold_witness :
  @boolean_intersection attributes one_group [box 1; box 2; box 3] fresh
  = (logged [gmsh.model_occ_intersect [(3, 1)] [(3, 2)] true true;
             gmsh.model_occ_intersect [(3, 7)] [(3, 3)] true true] fresh,
     inr (Boolean [(3, 7)] "Intersection")).
Proof.
  refine (proj1 (@boolean_intersection_left_fold attributes one_group
                   (box 1) [box 2; box 3] fresh _ (3, 7) _)).
  apply (@pairwise_fold_step attributes one_group _ (3, 1) (box 2) [box 3] (3, 7) [] _ (3, 7));
    [reflexivity|constructor|].
  apply (@pairwise_fold_step attributes one_group _ (3, 7) (box 3) [] (3, 7) [] _ (3, 7));
    [reflexivity|constructor|].
  apply pairwise_fold_done.
Defined.

(** Two different groups at the first step: the call fails there, and the
    third box is never sent to the kernel. *)
Lemma boolean_intersection_stops_at_mixed_output_witness :
  gmsh.reply (Kernel := two_groups) (kernel_log fresh)
    (gmsh.model_occ_intersect [(3, 1)] [(3, 2)] true true) = Some [(3, 7); (3, 8)] ∧
  @boolean_intersection attributes two_groups [box 1; box 2; box 3] fresh
  = (logged [gmsh.model_occ_intersect [(3, 1)] [(3, 2)] true true] fresh,
     inl (AssertionError InconsistentBooleanResult)).
Proof.
  split; [reflexivity|].
  refine (@boolean_intersection_stops_at_mixed_output attributes two_groups
            (box 1) (box 2) [] [box 3] fresh [] (3, 1) [(3, 7); (3, 8)] _ eq_refl _).
  - apply pairwise_fold_done.
  - exists (3, 8). split; [|discriminate].
    apply list_elem_of_further, list_elem_of_here.
Defined.

(** C5, against the claim as stated: the kernel's output at each step holds
    two groups, the same dim-tag twice, and [boolean_intersection] returns
    an entity instead of failing; both fold steps run. *)
Lemma boolean_intersection_accepts_repeated_group :
  gmsh.reply (Kernel := repeated_group) (kernel_log fresh)
    (gmsh.model_occ_intersect [(3, 1)] [(3, 2)] true true) = Some [(3, 7); (3, 7)] ∧
  length [(3, 7); (3, 7)] = 2%nat ∧
  @boolean_intersection attributes repeated_group [box 1; box 2; box 3] fresh
  = (logged [gmsh.model_occ_intersect [(3, 1)] [(3, 2)] true true;
             gmsh.model_occ_intersect [(3, 7)] [(3, 3)] true true] fresh,
     inr (Boolean [(3, 7)] "Intersection")).
Proof. by split_and!. Qed.

(** A rectangle against a box on a model whose counter holds 0. *)
Lemma failed_validation_only_advances_counter_witness :
  (@boolean_fragments attributes [rectangle 1] [box 2] true true (patched 0)).2
    = inl (AssertionError (IncompatibleDimension (box 2))) ∧
  ∃ n, _BOOLEAN_ID (self (patched 0)) = Some n ∧
       (@boolean_fragments attributes [rectangle 1] [box 2] true true (patched 0)).1
       = set_self (set_BOOLEAN_ID (n + 1) (self (patched 0))) (patched 0).
Proof.
  split; [reflexivity|].
  exact (@failed_validation_only_advances_counter attributes "BooleanFragments"
           [rectangle 1] [box 2] true true (patched 0)
           (IncompatibleDimension (box 2)) eq_refl).
Defined.

(** C1, against the claim as stated: the call fails the second dimension
    check, and the model is not what it was: the counter went from 0 to
    1. *)
Lemma failed_validation_allocates_an_id :
  (@boolean_fragments attributes [rectangle 1] [box 2] true true (patched 0)).2
    = inl (AssertionError (IncompatibleDimension (box 2))) ∧
  _BOOLEAN_ID (self (patched 0)) = Some 0 ∧
  _BOOLEAN_ID
    (self (@boolean_fragments attributes [rectangle 1] [box 2] true true (patched 0)).1)
    = Some 1 ∧
  self (@boolean_fragments attributes [rectangle 1] [box 2] true true (patched 0)).1
    ≠ self (patched 0).
Proof. split_and!; [reflexivity..|discriminate]. Qed.

Lemma boolean_ids_follow_script_calls_witness :
  _BOOLEAN_ID (self (patched 0)) = Some 0 ∧
  _BOOLEAN_ID (self (@run_ops attributes one_group three_calls (patched 0)).1) = Some 2 ∧
  ∃ e0, head [box 5; box 6] = Some e0 ∧
    (@dimension attributes e0 = 2 ∧ VolumeBase "bo2" true = SurfaceBase "bo2" true ∨
     @dimension attributes e0 = 3 ∧ VolumeBase "bo2" true = VolumeBase "bo2" true).
Proof.
  split; [reflexivity|].
  destruct (@boolean_ids_follow_script_calls attributes one_group three_calls
              (patched 0) 0 eq_refl) as (Hcounter & Hnames & _).
  split; [exact Hcounter|].
  exact (Hnames 2%nat [box 5; box 6] [] false false (VolumeBase "bo2" true)
           eq_refl eq_refl).
Defined.

(** C2, against the claim as stated: the third boolean operation made on
    the model is named bo2, not bo3, since the union before it took no
    id. *)
Lemma third_boolean_operation_named_bo2 :
  (@run_ops attributes one_group three_calls (patched 0)).2
  = [inr (SurfaceBase "bo1" true);
     inr (Boolean [(3, 7)] "Union");
     inr (VolumeBase "bo2" true)] ∧
  VolumeBase "bo2" true ≠ VolumeBase ("bo" +:+ pretty 3) true.
Proof. split; [reflexivity|discriminate]. Qed.

(** C3 and C4 at their failing inputs, on the model [__init__] builds. *)
Example add_cylinder_mesh_size_on_new_model :
  @add_cylinder attributes [Tuple [0; 0; 0]%Q; Tuple [0; 0; 1]%Q; Num 1]
    [("mesh_size", Num 5)] fresh
  = (fresh, inl (AttributeError "_GMSH_CODE")).
Proof. reflexivity. Qed.

Example add_rectangle_mesh_size_on_new_model :
  _SIZE_QUEUE
    (self (add_rectangle [Tuple [0; 0; 0]%Q; Num 1; Num 2] (Some (Num 5)) [] fresh).1)
  = [(Primitive Rectangle [Tuple [0; 0; 0]%Q; Num 1; Num 2] [], Num 5)].
Proof. reflexivity. Qed.

Example boolean_fragments_on_new_model :
  @boolean_fragments attributes [point 1] [] true true fresh
  = (fresh, inl (AttributeError "_BOOLEAN_ID")).
Proof. reflexivity. Qed.

End Runs.

(** * Further properties of the class *)

(** ** [_boolean_operation]: every path *)

Section ScriptModePaths.
Context {attributes : Attributes} {kernel : gmsh.Kernel}.

(** The world and the outcome of a call, path by path: the counter is
    missing; or the call stops before the command is appended; or the
    command is appended and the call returns or fails on the missing
    composite class. *)
Lemma _boolean_operation_cases operation input_entities tool_entities
    delete_first delete_other (w : World) :
  let r := _boolean_operation operation input_entities tool_entities
             delete_first delete_other w in
  (_BOOLEAN_ID (self w) = None ∧ r = (w, inl (AttributeError "_BOOLEAN_ID"))) ∨
  ∃ n, _BOOLEAN_ID (self w) = Some n ∧
    ((r.1 = counted n w ∧
      (r.2 = inl IndexError ∨ (∃ a, r.2 = inl (AssertionError a)) ∨
       r.2 = inl (AttributeError "_GMSH_CODE"))) ∨
     (∃ c cmd, _GMSH_CODE (self w) = Some c ∧
        r.1 = set_self (set_GMSH_CODE (c ++ [cmd]) (self (counted n w))) (counted n w) ∧
        (r.2 = inl TypeError ∨ ∃ e, r.2 = inr e))).
Proof.
  intros r. subst r.
  destruct (_BOOLEAN_ID (self w)) as [n|] eqn:Hid.
  - right. exists n. split; [done|].
    rewrite (_boolean_operation_stages _ _ _ _ _ _ _ Hid).
    destruct input_entities as [|e0 rest]; [left; auto|].
    case_decide; [|left; eauto].
    destruct (first_mismatch _ _); [left; eauto|].
    rewrite (emit_outcome _ _ _ _ _ _ _ (n + 1)) by done.
    change (_GMSH_CODE (self (counted n w))) with (_GMSH_CODE (self w)).
    destruct (_GMSH_CODE (self w)) as [c|]; [|left; auto].
    right. eexists c, _. split; [done|]. split; [reflexivity|].
    simpl. repeat case_decide; eauto.
  - left. split; [done|].
    unfold _boolean_operation. unfold bind at 1. unfold get_BOOLEAN_ID.
    by rewrite Hid.
Qed.

(** X4: on every path and from every model, [_boolean_operation] makes no
    kernel call, prints nothing, and leaves the size queue and the six other
    queues as they were: all it ever writes is the counter and the command
    stream. *)
Theorem script_mode_touches_only_counter_and_stream operation input_entities
    tool_entities delete_first delete_other (w : World) :
  kernel_log (_boolean_operation operation input_entities tool_entities
                delete_first delete_other w).1 = kernel_log w ∧
  stdout (_boolean_operation operation input_entities tool_entities
            delete_first delete_other w).1 = stdout w ∧
  _SIZE_QUEUE (self (_boolean_operation operation input_entities tool_entities
                       delete_first delete_other w).1) = _SIZE_QUEUE (self w) ∧
  other_queues (self (_boolean_operation operation input_entities tool_entities
                        delete_first delete_other w).1) = other_queues (self w).
Proof.
  destruct (_boolean_operation_cases operation input_entities tool_entities
              delete_first delete_other w)
    as [[_ ->]|(n & _ & [[-> _]|(c & cmd & _ & -> & _)])]; done.
Qed.

(** X5: no path of [_boolean_operation] raises KeyError: the two dict
    lookups, [legal_dim_types[dim]] and [mapping[...]], are only reached
    with a key the dict holds.  Nor does a kernel error ever come out of
    it. *)
Theorem script_mode_never_KeyError operation input_entities tool_entities
    delete_first delete_other (w : World) :
  (_boolean_operation operation input_entities tool_entities
     delete_first delete_other w).2 ≠ inl KeyError ∧
  (_boolean_operation operation input_entities tool_entities
     delete_first delete_other w).2 ≠ inl KernelError.
Proof.
  destruct (_boolean_operation_cases operation input_entities tool_entities
              delete_first delete_other w)
    as [[_ ->]|(n & _ & [[_ [->|[[a ->]| ->]]]|(c & cmd & _ & _ & [->|[e ->]])])];
    done.
Qed.

(** X3: operands of dimension 1 pass both checks, so the command is
    appended to the command stream under the new name; the call then fails
    with TypeError, [mapping] holding [None] for "Line", and returns no
    entity. *)
Theorem curve_operands_emit_then_TypeError operation (e0 : Entity)
    (rest tool_entities : list Entity) delete_first delete_other
    (w : World) (n : Z) (c : list string) :
  _BOOLEAN_ID (self w) = Some n →
  _GMSH_CODE (self w) = Some c →
  dimension e0 = 1 →
  Forall (λ e, dimension e = 1) (rest ++ tool_entities) →
  _boolean_operation operation (e0 :: rest) tool_entities delete_first delete_other w
  = (set_self
       (set_GMSH_CODE
          (c ++ [command ("bo" +:+ pretty (n + 1)) operation
                   (formatted_entities "Line" (e0 :: rest))
                   (if delete_first then "Delete;" else "")
                   (formatted_entities "Line" tool_entities)
                   (if delete_other then "Delete;" else "")])
          (set_BOOLEAN_ID (n + 1) (self w))) w,
     inl TypeError).
Proof.
  intros Hid Hcode Hdim Hall.
  rewrite (_boolean_operation_stages _ _ _ _ _ _ _ Hid).
  rewrite Hdim. rewrite decide_True by (rewrite !elem_of_cons; tauto).
  rewrite (proj2 (first_mismatch_None _ _) Hall).
  rewrite (emit_outcome _ _ _ _ _ _ _ (n + 1)) by (done || rewrite !elem_of_cons; tauto).
  simpl. by rewrite Hcode.
Qed.

Lemma first_mismatch_app (dim : Z) (agreeing others : list Entity) (e : Entity) :
  Forall (λ e', dimension e' = dim) agreeing →
  dimension e ≠ dim →
  first_mismatch dim (agreeing ++ e :: others) = Some e.
Proof.
  intros Hall Hne. unfold first_mismatch.
  induction Hall as [|e' agreeing He' _ IH]; simpl.
  - by rewrite bool_decide_eq_false_2.
  - by rewrite bool_decide_eq_true_2.
Qed.

(** X6: the second check goes through the inputs after the first, then
    the tools, in order, and stops at the first operand whose dimension is
    not the first input's: that operand is the one the error is about,
    whatever comes after it. *)
Theorem first_incompatible_operand_is_reported operation (e0 e : Entity)
    (rest tool_entities agreeing others : list Entity) delete_first delete_other
    (w : World) (n : Z) :
  _BOOLEAN_ID (self w) = Some n →
  dimension e0 ∈ [1; 2; 3] →
  rest ++ tool_entities = agreeing ++ e :: others →
  Forall (λ e', dimension e' = dimension e0) agreeing →
  dimension e ≠ dimension e0 →
  _boolean_operation operation (e0 :: rest) tool_entities delete_first delete_other w
  = (set_self (set_BOOLEAN_ID (n + 1) (self w)) w,
     inl (AssertionError (IncompatibleDimension e))).
Proof.
  intros Hid Hlegal Hsplit Hall Hne.
  rewrite (_boolean_operation_stages _ _ _ _ _ _ _ Hid).
  rewrite decide_True by done.
  by rewrite Hsplit, (first_mismatch_app _ _ _ _ Hall Hne).
Qed.

(** X7: on a model whose counter exists, [_boolean_operation] raises
    IndexError exactly when the list of inputs is empty, whatever the
    tools; the counter has been advanced by then. *)
Theorem IndexError_iff_no_input operation input_entities tool_entities
    delete_first delete_other (w : World) (n : Z) :
  _BOOLEAN_ID (self w) = Some n →
  ((_boolean_operation operation input_entities tool_entities
      delete_first delete_other w).2 = inl IndexError ↔ input_entities = []) ∧
  (input_entities = [] →
   (_boolean_operation operation input_entities tool_entities
      delete_first delete_other w).1 = set_self (set_BOOLEAN_ID (n + 1) (self w)) w).
Proof.
  intros Hid. rewrite (_boolean_operation_stages _ _ _ _ _ _ _ Hid).
  destruct input_entities as [|e0 rest]; [done|].
  split; [|done]. split; [|done].
  case_decide; [|done].
  destruct (first_mismatch _ _); [done|].
  rewrite (emit_outcome _ _ _ _ _ _ _ (n + 1)) by done.
  simpl. destruct (_GMSH_CODE (self w)); [|done]. simpl. by repeat case_decide.
Qed.

End ScriptModePaths.

(** ** The text of a command *)

Lemma string_app_assoc (s1 s2 s3 : string) :
  s1 +:+ s2 +:+ s3 = (s1 +:+ s2) +:+ s3.
Proof.
  induction s1 as [|a s1 IH]; [done|].
  change (String a (s1 +:+ s2 +:+ s3) = String a ((s1 +:+ s2) +:+ s3)).
  by f_equal.
Qed.

Lemma string_app_nil_r (s : string) : s +:+ "" = s.
Proof.
  induction s as [|a s IH]; [done|].
  change (String a (s +:+ "") = String a s). by f_equal.
Qed.

Section CommandText.
Context {attributes : Attributes}.

Lemma formatted_entities_cons (legal_dim_type : string) (e : Entity)
    (entities : list Entity) :
  formatted_entities legal_dim_type (e :: entities)
  = (legal_dim_type +:+ "{" +:+ str (id e) +:+ "}") +:+ ";"
    +:+ formatted_entities legal_dim_type entities.
Proof.
  unfold formatted_entities.
  destruct entities as [|e' entities].
  - cbn [map String.concat]. by rewrite string_app_nil_r.
  - cbn [map String.concat]. by rewrite <-!string_app_assoc.
Qed.

(** X8: in the text of a command every entity of a group stands as its
    type name, its id in braces and a semicolon, one after the other with
    nothing in between; the empty group is the empty string, the same
    formula on no entity.  So the text of a list is the text of its first
    part followed by the text of the rest. *)
Theorem formatted_entities_entrywise (legal_dim_type : string)
    (entities more : list Entity) :
  formatted_entities legal_dim_type entities
  = foldr (λ e text, legal_dim_type +:+ "{" +:+ str (id e) +:+ "};" +:+ text) ""
      entities ∧
  formatted_entities legal_dim_type (entities ++ more)
  = formatted_entities legal_dim_type entities
    +:+ formatted_entities legal_dim_type more.
Proof.
  split.
  - induction entities as [|e entities IH]; [done|].
    rewrite formatted_entities_cons, IH. cbn [foldr].
    by rewrite <-!string_app_assoc.
  - induction entities as [|e entities IH]; [done|].
    change ((e :: entities) ++ more) with (e :: (entities ++ more)).
    rewrite !formatted_entities_cons, IH.
    by rewrite <-!string_app_assoc.
Qed.

Lemma bo_name_inj (a b : Z) : "bo" +:+ pretty a = "bo" +:+ pretty b → a = b.
Proof. intros Heq. by apply (inj pretty), (inj (String.app "bo")). Qed.

End CommandText.

(** ** [__init__] *)

Section Init.
Context {attributes : Attributes} {kernel : gmsh.Kernel}.

(** X9: when the kernel returns from every call, [__init__] returns too,
    having created the seven queues empty and called the kernel, in this
    order, to initialize, to set the minimal characteristic length if one
    was given, and to set the maximal one if one was given. *)
Theorem init_kernel_calls_in_order clmin clmax (w : World) :
  (∀ history c, gmsh.reply history c ≠ None) →
  __init__ clmin clmax w
  = (mkWorld new_Geometry
       (kernel_log w ++ gmsh.initialize :: option_calls clmin clmax) (stdout w),
     inr ()).
Proof.
  intros Hreturns.
  assert (Hcall : ∀ c w0, ∃ out, kernel_call c w0 = (logged [c] w0, inr out)).
  { intros c w0. unfold kernel_call.
    destruct (gmsh.reply (kernel_log w0) c) as [out|] eqn:Hreply; [by exists out|].
    by destruct (Hreturns _ _ Hreply). }
  unfold __init__. unfold bind at 1. unfold bind at 1.
  destruct (Hcall gmsh.initialize (set_self new_Geometry w)) as [out0 ->].
  unfold option_calls.
  destruct clmin as [vmin|], clmax as [vmax|]; unfold bind at 1.
  - unfold bind at 1.
    destruct (Hcall (gmsh.option_setNumber "Mesh.CharacteristicLengthMin" vmin)
                (logged [gmsh.initialize] (set_self new_Geometry w))) as [out1 ->].
    unfold ret at 1. unfold bind at 1.
    match goal with
    | |- context [kernel_call ?c ?w0] => destruct (Hcall c w0) as [out2 ->]
    end.
    unfold ret, logged, set_self. simpl. by rewrite <-!(assoc_L (++)).
  - unfold bind at 1.
    destruct (Hcall (gmsh.option_setNumber "Mesh.CharacteristicLengthMin" vmin)
                (logged [gmsh.initialize] (set_self new_Geometry w))) as [out1 ->].
    unfold ret, logged, set_self. simpl. by rewrite <-!(assoc_L (++)).
  - unfold ret at 1. unfold bind at 1.
    match goal with
    | |- context [kernel_call ?c ?w0] => destruct (Hcall c w0) as [out2 ->]
    end.
    unfold ret, logged, set_self. simpl. by rewrite <-!(assoc_L (++)).
  - unfold ret, logged, set_self. simpl. done.
Qed.

(** X10: whatever the kernel answers, and also when [__init__] ends on a
    kernel error, the model it leaves has its seven queues empty and neither
    a counter nor a command stream; the first call it has made to the kernel
    is the one that initializes it, and nothing was printed. *)
Theorem init_leaves_empty_queues clmin clmax (w : World) :
  self (__init__ clmin clmax w).1 = new_Geometry ∧
  (∃ others, kernel_log (__init__ clmin clmax w).1
             = kernel_log w ++ gmsh.initialize :: others) ∧
  stdout (__init__ clmin clmax w).1 = stdout w.
Proof.
  split; [apply self_after_init|].
  unfold __init__, bind, kernel_call, ret.
  cbn [kernel_log set_self logged].
  destruct (gmsh.reply (kernel_log w) gmsh.initialize); [|by split; [exists []|]].
  destruct clmin as [vmin|], clmax as [vmax|];
    repeat match goal with
      | |- context [gmsh.reply ?h ?c] => destruct (gmsh.reply h c)
      end;
    cbn [kernel_log stdout set_self logged fst];
    rewrite <-?(assoc_L (++)); split; eauto.
Qed.

End Init.

(** ** Sequences of calls on one model *)

Section Sequences.
Context {attributes : Attributes} {kernel : gmsh.Kernel}.

Lemma wrapped_world {A B} (m : M A) (f : A → B) (w : World) :
  (bind m (λ a, ret (f a)) w).1 = (m w).1.
Proof. unfold bind, ret. by destruct (m w) as [w' [e|a]]. Qed.

Lemma wrapped_outcome {A B} (m : M A) (f : A → B) (w : World) :
  (bind m (λ a, ret (f a)) w).2
  = match (m w).2 with inl e => inl e | inr a => inr (f a) end.
Proof. unfold bind, ret. by destruct (m w) as [w' [e|a]]. Qed.

Lemma run_op_queues (o : Op) (w : World) :
  _SIZE_QUEUE (self (run_op o w).1) = _SIZE_QUEUE (self w) ∧
  other_queues (self (run_op o w).1) = other_queues (self w).
Proof.
  destruct o as [i t df do|es|es|d0 d1]; simpl.
  - unfold boolean_fragments.
    by destruct (_boolean_operation_cases "BooleanFragments" i t df do w)
      as [[_ ->]|(n & _ & [[-> _]|(c & cmd & _ & -> & _)])].
  - by rewrite keeps_self_boolean_intersection.
  - by rewrite keeps_self_boolean_union.
  - by rewrite keeps_self_boolean_difference.
Qed.

(** What one call does to the queues. *)
Lemma run_call_queues (c : Call) (w : World) :
  _SIZE_QUEUE (self (run_call c w).1) = _SIZE_QUEUE (self w) ++ size_entry c ∧
  other_queues (self (run_call c w).1) = other_queues (self w).
Proof.
  destruct c as [args [m|] kwargs|args [m|] kwargs|args [m|] kwargs
                |args [m|] kwargs|args [m|] kwargs
                |args kwargs|args kwargs|args kwargs|args kwargs|o|];
    unfold run_call; rewrite wrapped_world; cbn [size_entry];
    rewrite ?(right_id_L [] (++)); try done.
  1-4: unfold add_cylinder, add_ellipsoid, add_torus, add_wedge;
       unfold bind, GMSH_CODE_append, bind, get_GMSH_CODE;
       by destruct (_GMSH_CODE (self w)).
  - apply run_op_queues.
  - unfold synchronize. rewrite wrapped_world.
    by rewrite keeps_self_kernel_call.
Qed.

(** X11: over any sequence of calls to the methods of the class, the size
    queue only grows at its end, by the pairs of the calls to [add_rectangle],
    [add_disk], [add_ball], [add_box] and [add_cone] that were given a
    [mesh_size], in the order of the calls; no entry is ever removed or
    moved, no other method adds one, and the six other queues stay as they
    were. *)
Theorem size_queue_in_call_order (cs : list Call) (w : World) :
  _SIZE_QUEUE (self (run_calls cs w).1)
    = _SIZE_QUEUE (self w) ++ concat (map size_entry cs) ∧
  other_queues (self (run_calls cs w).1) = other_queues (self w).
Proof.
  revert w. induction cs as [|c cs IH]; intros w; simpl.
  - by rewrite (right_id_L [] (++)).
  - destruct (run_call_queues c w) as [Hsize Hother].
    destruct (run_call c w) as [w1 r]. simpl in Hsize, Hother.
    destruct (IH w1) as [IHsize IHother].
    destruct (run_calls cs w1) as [w2 rs]. simpl in *.
    by rewrite IHsize, Hsize, IHother, Hother, (assoc_L (++)).
Qed.

(** One call on a model that has neither attribute. *)
Lemma run_call_without_attributes (c : Call) (w : World) :
  _BOOLEAN_ID (self w) = None →
  _GMSH_CODE (self w) = None →
  _BOOLEAN_ID (self (run_call c w).1) = None ∧
  _GMSH_CODE (self (run_call c w).1) = None ∧
  (uses_command_stream c = true →
   ∃ name, (run_call c w).2 = inl (AttributeError name)).
Proof.
  intros Hid Hcode.
  destruct c as [args [m|] kwargs|args [m|] kwargs|args [m|] kwargs
                |args [m|] kwargs|args [m|] kwargs
                |args kwargs|args kwargs|args kwargs|args kwargs|o|];
    unfold run_call; rewrite wrapped_world, wrapped_outcome;
    cbn [uses_command_stream]; try done.
  1-4: unfold add_cylinder, add_ellipsoid, add_torus, add_wedge;
       unfold bind, GMSH_CODE_append, bind, get_GMSH_CODE;
       rewrite Hcode; simpl; eauto.
  - destruct o as [i t df do|es|es|d0 d1]; cbn [run_op is_script].
    + unfold boolean_fragments.
      destruct (_boolean_operation_cases "BooleanFragments" i t df do w)
        as [[_ ->]|(n & Hn & _)]; [simpl; eauto|congruence].
    + by rewrite keeps_self_boolean_intersection.
    + by rewrite keeps_self_boolean_union.
    + by rewrite keeps_self_boolean_difference.
  - unfold synchronize. rewrite wrapped_world.
    by rewrite keeps_self_kernel_call.
Qed.

Lemma run_calls_without_attributes (cs : list Call) (w : World) :
  _BOOLEAN_ID (self w) = None →
  _GMSH_CODE (self w) = None →
  _BOOLEAN_ID (self (run_calls cs w).1) = None ∧
  _GMSH_CODE (self (run_calls cs w).1) = None ∧
  Forall2 (λ c r, uses_command_stream c = true →
                  ∃ name, r = inl (AttributeError name))
    cs (run_calls cs w).2.
Proof.
  revert w. induction cs as [|c cs IH]; intros w Hid Hcode; simpl.
  - split_and!; [done..|constructor].
  - destruct (run_call_without_attributes c w Hid Hcode) as (Hid1 & Hcode1 & Hr).
    destruct (run_call c w) as [w1 r]. simpl in Hid1, Hcode1, Hr.
    destruct (IH w1 Hid1 Hcode1) as (Hid2 & Hcode2 & Hrs).
    destruct (run_calls cs w1) as [w2 rs]. simpl in *.
    split_and!; [done..|by constructor].
Qed.

(** X12: no method creates [_BOOLEAN_ID] or [_GMSH_CODE].  On a model set
    up by [__init__], after any sequence of calls to the methods of the
    class both attributes are still missing, and every call in the sequence
    to [boolean_fragments], [add_cylinder], [add_ellipsoid], [add_torus] or
    [add_wedge] has raised AttributeError. *)
Theorem no_call_creates_counter_or_stream clmin clmax (w0 : World) (cs : list Call) :
  _BOOLEAN_ID (self (run_calls cs (__init__ clmin clmax w0).1).1) = None ∧
  _GMSH_CODE (self (run_calls cs (__init__ clmin clmax w0).1).1) = None ∧
  Forall2 (λ c r, uses_command_stream c = true →
                  ∃ name, r = inl (AttributeError name))
    cs (run_calls cs (__init__ clmin clmax w0).1).2.
Proof.
  apply run_calls_without_attributes; by rewrite self_after_init.
Qed.

(** The name a script-mode call returns, in a sequence of boolean
    operations. *)
Lemma script_call_name (ops : list Op) (w : World) (n : Z) (k : nat)
    i t df do (r : Entity) :
  _BOOLEAN_ID (self w) = Some n →
  ops !! k = Some (Fragments i t df do) →
  (run_ops ops w).2 !! k = Some (inr r) →
  id0_of r = Some ("bo" +:+ pretty (n + script_calls (take (S k) ops))).
Proof.
  revert w n k. induction ops as [|o ops IH]; intros w n k Hid Hk Hr.
  - by rewrite lookup_nil in Hk.
  - simpl in Hr.
    pose proof (run_op_counter o w n Hid) as Hstep.
    destruct (run_op o w) as [w1 r1] eqn:Hrun. simpl in Hstep.
    specialize (IH w1 (n + (if is_script o then 1 else 0))).
    destruct (run_ops ops w1) as [w2 rs] eqn:Hrest. simpl in Hr.
    destruct k as [|k]; simpl in Hk, Hr.
    + injection Hk as ->. injection Hr as ->. simpl in Hrun.
      unfold boolean_fragments in Hrun.
      pose proof (_boolean_operation_returns "BooleanFragments" i t df do w n r Hid)
        as Hret.
      rewrite Hrun in Hret. destruct (Hret eq_refl) as (e0 & _ & [[_ ->]|[_ ->]]);
        simpl; rewrite ?take_0; simpl;
        by replace (n + (1 + 0)) with (n + 1) by lia.
    + rewrite (IH k Hstep Hk Hr).
      change (take (S (S k)) (o :: ops)) with (o :: take (S k) ops).
      simpl script_calls. do 3 f_equal. lia.
Qed.

(** X13: on a model whose counter exists, two different script-mode calls
    of a sequence of boolean operations never return entities of the same
    name, whatever is called between them. *)
Theorem script_mode_names_are_distinct (ops : list Op) (w : World) (n : Z)
    (j k : nat) ij tj dfj doj ik tk dfk dok (rj rk : Entity) :
  _BOOLEAN_ID (self w) = Some n →
  (j < k)%nat →
  ops !! j = Some (Fragments ij tj dfj doj) →
  ops !! k = Some (Fragments ik tk dfk dok) →
  (run_ops ops w).2 !! j = Some (inr rj) →
  (run_ops ops w).2 !! k = Some (inr rk) →
  id0_of rj ≠ id0_of rk ∧ is_Some (id0_of rj) ∧ is_Some (id0_of rk).
Proof.
  intros Hid Hjk Hj Hk Hrj Hrk.
  rewrite (script_call_name _ _ _ _ _ _ _ _ _ Hid Hj Hrj).
  rewrite (script_call_name _ _ _ _ _ _ _ _ _ Hid Hk Hrk).
  split; [|by split].
  intros Heq%(inj Some)%bo_name_inj.
  pose proof (script_calls_take_S _ _ _ Hk) as HSk. simpl in HSk.
  pose proof (script_calls_take_le ops (S j) k ltac:(lia)). lia.
Qed.

(** What one boolean operation does to the command stream. *)
Lemma run_op_command_stream (o : Op) (w : World) (c : list string) :
  _GMSH_CODE (self w) = Some c →
  ∃ added, _GMSH_CODE (self (run_op o w).1) = Some (c ++ added) ∧
           (Z.of_nat (length added) ≤ (if is_script o then 1 else 0))%Z.
Proof.
  intros Hcode. destruct o as [i t df do|es|es|d0 d1]; simpl.
  - unfold boolean_fragments.
    destruct (_boolean_operation_cases "BooleanFragments" i t df do w)
      as [[_ ->]|(n & _ & [[-> _]|(c' & cmd & Hc' & -> & _)])].
    + exists []. by rewrite (right_id_L [] (++)).
    + exists []. by rewrite (right_id_L [] (++)).
    + exists [cmd]. simpl. rewrite Hcode in Hc'. by injection Hc' as <-.
  - exists []. by rewrite keeps_self_boolean_intersection, (right_id_L [] (++)).
  - exists []. by rewrite keeps_self_boolean_union, (right_id_L [] (++)).
  - exists []. by rewrite keeps_self_boolean_difference, (right_id_L [] (++)).
Qed.

(** X14: over any sequence of boolean operations the command stream is
    only appended to: the commands it held stay in place at its start, and
    at most one command is added per script-mode call, none by the
    direct-kernel operations. *)
Theorem command_stream_is_append_only (ops : list Op) (w : World) (c : list string) :
  _GMSH_CODE (self w) = Some c →
  ∃ added, _GMSH_CODE (self (run_ops ops w).1) = Some (c ++ added) ∧
           (Z.of_nat (length added) ≤ script_calls ops)%Z.
Proof.
  revert w c. induction ops as [|o ops IH]; intros w c Hcode; simpl.
  - exists []. by rewrite (right_id_L [] (++)).
  - destruct (run_op_command_stream o w c Hcode) as (added1 & Hcode1 & Hlen1).
    destruct (run_op o w) as [w1 r]. simpl in Hcode1.
    destruct (IH w1 _ Hcode1) as (added2 & Hcode2 & Hlen2).
    destruct (run_ops ops w1) as [w2 rs]. simpl in *.
    exists (added1 ++ added2). rewrite Hcode2, (assoc_L (++)). split; [done|].
    rewrite length_app. lia.
Qed.

End Sequences.

(** ** The direct-kernel operations: every path *)

Section DirectKernelPaths.
Context {attributes : Attributes} {kernel : gmsh.Kernel}.

(** The body of the loop of [boolean_intersection]. *)
Local Abbreviation intersect_body :=
  (λ (ent : DimTag) (e : Entity),
     bind (kernel_call (gmsh.model_occ_intersect [ent] [dim_tags e] true true))
       (λ out, bind (assert (all_equal_first out) InconsistentBooleanResult)
                 (λ _, first out))).

(** The loop over a list in two parts: once the fold has gone through the
    first part, the loop goes on over the second from where the fold
    ended. *)
Lemma for_fold_after_prefix history running before calls result :
  pairwise_fold history running before calls result →
  ∀ (after : list Entity) (w : World), kernel_log w = history →
    for_fold (before ++ after) running intersect_body w
    = for_fold after result intersect_body (logged calls w).
Proof.
  induction 1 as [history running
                 |history running e operands group groups calls result
                    Hreply Hsame _ IH];
    intros after w Hlog; simpl.
  - by rewrite logged_nil.
  - unfold bind at 1. unfold bind at 1. unfold kernel_call.
    rewrite Hlog, Hreply. unfold bind at 1. unfold assert.
    rewrite (proj2 (all_equal_first_cons group groups) Hsame). simpl.
    rewrite IH by (simpl; by rewrite Hlog).
    by rewrite logged_logged.
Qed.

Lemma boolean_intersection_cons (A1 : Entity) (operands : list Entity) (w : World) :
  boolean_intersection (A1 :: operands) w
  = match for_fold operands (dim_tags A1) intersect_body w with
    | (w', inr ent) => (w', inr (Boolean [ent] "Intersection"))
    | (w', inl e) => (w', inl e)
    end.
Proof. reflexivity. Qed.

(** X15: intersecting a list can be cut in two.  If the fold over the
    operands [before] goes through and ends with the dim-tag of an entity
    [B], then intersecting [A1 :: before ++ after] is intersecting
    [B :: after] on the model as the first steps have left it: same kernel
    calls from there on, same result, same failure if there is one. *)
Theorem boolean_intersection_in_two_parts (A1 B : Entity)
    (before after : list Entity) (w : World) (calls : list gmsh.call) :
  pairwise_fold (kernel_log w) (dim_tags A1) before calls (dim_tags B) →
  boolean_intersection (A1 :: before ++ after) w
  = boolean_intersection (B :: after) (logged calls w).
Proof.
  intros Hfold. rewrite !boolean_intersection_cons.
  by rewrite (for_fold_after_prefix _ _ _ _ _ Hfold after w eq_refl).
Qed.

(** X16: a kernel that returns no group at some step makes
    [boolean_intersection] fail with IndexError, not with the assertion:
    [all] over an empty output passes and [out[0]] then fails.  The steps
    before it have run, none after it does. *)
Theorem boolean_intersection_empty_output (A1 e : Entity)
    (before after : list Entity) (w : World) (calls : list gmsh.call)
    (running : DimTag) :
  pairwise_fold (kernel_log w) (dim_tags A1) before calls running →
  gmsh.reply (kernel_log w ++ calls)
    (gmsh.model_occ_intersect [running] [dim_tags e] true true) = Some [] →
  boolean_intersection (A1 :: before ++ e :: after) w
  = (logged (calls ++ [gmsh.model_occ_intersect [running] [dim_tags e] true true]) w,
     inl IndexError).
Proof.
  intros Hfold Hreply. rewrite boolean_intersection_cons.
  rewrite (for_fold_after_prefix _ _ _ _ _ Hfold (e :: after) w eq_refl).
  simpl for_fold. unfold bind at 1. unfold bind at 1. unfold kernel_call.
  cbn [kernel_log logged]. rewrite Hreply. simpl.
  by rewrite logged_logged.
Qed.

(** X17: a kernel error at some step comes out of [boolean_intersection]
    as it is, after the steps before it; no later operand reaches the
    kernel. *)
Theorem boolean_intersection_kernel_error (A1 e : Entity)
    (before after : list Entity) (w : World) (calls : list gmsh.call)
    (running : DimTag) :
  pairwise_fold (kernel_log w) (dim_tags A1) before calls running →
  gmsh.reply (kernel_log w ++ calls)
    (gmsh.model_occ_intersect [running] [dim_tags e] true true) = None →
  boolean_intersection (A1 :: before ++ e :: after) w
  = (logged (calls ++ [gmsh.model_occ_intersect [running] [dim_tags e] true true]) w,
     inl KernelError).
Proof.
  intros Hfold Hreply. rewrite boolean_intersection_cons.
  rewrite (for_fold_after_prefix _ _ _ _ _ Hfold (e :: after) w eq_refl).
  simpl for_fold. unfold bind at 1. unfold bind at 1. unfold kernel_call.
  cbn [kernel_log logged]. rewrite Hreply. simpl.
  by rewrite logged_logged.
Qed.

(** One turn of the loop. *)
Lemma for_fold_step (e : Entity) (operands : list Entity) (running : DimTag)
    (w : World) :
  for_fold (e :: operands) running intersect_body w
  = let c := gmsh.model_occ_intersect [running] [dim_tags e] true true in
    match gmsh.reply (kernel_log w) c with
    | None => (logged [c] w, inl KernelError)
    | Some out =>
        if all_equal_first out then
          match out with
          | [] => (logged [c] w, inl IndexError)
          | group :: _ => for_fold operands group intersect_body (logged [c] w)
          end
        else (logged [c] w, inl (AssertionError InconsistentBooleanResult))
    end.
Proof.
  simpl. unfold bind at 1. unfold bind at 1. unfold kernel_call.
  destruct (gmsh.reply _ _) as [out|]; [|done].
  unfold bind at 1. unfold assert.
  destruct (all_equal_first out); [|done].
  by destruct out.
Qed.

Lemma for_fold_calls (operands : list Entity) :
  ∀ (running : DimTag) (w : World),
    ∃ calls,
      (for_fold operands running intersect_body w).1 = logged calls w ∧
      (length calls ≤ length operands)%nat ∧
      Forall is_pairwise_intersect calls ∧
      (∀ r, (for_fold operands running intersect_body w).2 = inr r →
            length calls = length operands).
Proof.
  induction operands as [|e operands IH]; intros running w.
  - exists []. simpl. by rewrite logged_nil.
  - rewrite for_fold_step. cbv zeta.
    assert (Hthis : is_pairwise_intersect
              (gmsh.model_occ_intersect [running] [dim_tags e] true true))
      by (by eexists _, _).
    destruct (gmsh.reply _ _) as [out|];
      [destruct (all_equal_first out); [destruct out as [|group groups]|]|].
    2: { destruct (IH group
                     (logged [gmsh.model_occ_intersect [running] [dim_tags e] true true] w))
           as (calls & Hw & Hlen & Hall & Hret).
         eexists (_ :: calls). rewrite Hw, logged_logged.
         split_and!; [done|simpl; lia|by constructor|].
         intros r Hr. simpl. by rewrite (Hret r Hr). }
    all: eexists [_]; simpl; split_and!; [done|lia|by constructor|done].
Qed.

(** X18: on every path, from every model and for every kernel,
    [boolean_intersection] on n entities makes at most n-1 kernel calls,
    exactly n-1 when it returns, and each of them is an intersect of one
    object against one tool with both removed; it never calls fuse or cut,
    and it prints nothing. *)
Theorem boolean_intersection_kernel_calls (entities : list Entity) (w : World) :
  ∃ calls,
    (boolean_intersection entities w).1 = logged calls w ∧
    (length calls ≤ length entities - 1)%nat ∧
    Forall is_pairwise_intersect calls ∧
    (∀ r, (boolean_intersection entities w).2 = inr r →
          length calls = (length entities - 1)%nat).
Proof.
  destruct entities as [|A1 operands].
  - exists []. by rewrite logged_nil.
  - rewrite boolean_intersection_cons.
    destruct (for_fold_calls operands (dim_tags A1) w) as (calls & Hw & Hlen & Hall & Hret).
    exists calls.
    destruct (for_fold operands (dim_tags A1) _ w) as [w' [err|ent]]; simpl in *.
    + split_and!; [done|lia|done|done].
    + split_and!; [done|lia|done|].
      intros _ _. rewrite (Hret ent eq_refl). lia.
Qed.

(** X19: on every path [boolean_difference] prints its two operands, the
    first one first, and then makes exactly one kernel call, the cut; it
    fails with the kernel's error exactly when the kernel raises, before any
    check of the output. *)
Theorem boolean_difference_every_path (d0 d1 : Entity) (w : World) :
  stdout (boolean_difference d0 d1 w).1 = stdout w ++ [d0; d1] ∧
  kernel_log (boolean_difference d0 d1 w).1
    = kernel_log w ++ [gmsh.model_occ_cut (dim_tags d0) (dim_tags d1)] ∧
  ((boolean_difference d0 d1 w).2 = inl KernelError ↔
   gmsh.reply (kernel_log w) (gmsh.model_occ_cut (dim_tags d0) (dim_tags d1)) = None).
Proof.
  unfold boolean_difference, bind, print, kernel_call; simpl.
  destruct (gmsh.reply _ _) as [out|]; simpl.
  - unfold assert. case_bool_decide; simpl;
      rewrite <-(assoc_L (++)); split_and!; try done; by split.
  - rewrite <-(assoc_L (++)). by split_and!.
Qed.

End DirectKernelPaths.

(** * Runs of the further properties on the fixtures *)

Section FurtherRuns.
Import Mock.

(** A rectangle and a disk against a box: the second check fails. *)
Lemma dimension_validation_witness :
  _BOOLEAN_ID (self (patched 0)) = Some 0 ∧
  ∃ e, (@_boolean_operation attributes "BooleanFragments"
          [rectangle 1; disk 2] [box 3] true true (patched 0)).2
       = inl (AssertionError (IncompatibleDimension e)).
Proof.
  split; [reflexivity|].
  destruct (@dimension_validation attributes "BooleanFragments" (rectangle 1)
              [disk 2] [box 3] true true (patched 0) 0 eq_refl)
    as (_ & [_ Hsecond] & _).
  apply Hsecond. split.
  - apply list_elem_of_further, list_elem_of_here.
  - apply Exists_cons_tl, Exists_cons_hd. discriminate.
Defined.

(** Two boxes against a ball, the tools kept. *)
Lemma _boolean_operation_success_witness :
  @_boolean_operation attributes "BooleanFragments" [box 1; box 2] [ball 3]
    true false (patched 41)
  = (set_self
       (set_GMSH_CODE
          ["bo42[] = BooleanFragments{ Volume{1};Volume{2}; Delete; } { Volume{3}; };"]
          (set_BOOLEAN_ID 42 new_Geometry)) fresh,
     inr (VolumeBase "bo42" true)).
Proof.
  refine (@_boolean_operation_success attributes "BooleanFragments" (box 1) [box 2]
            [ball 3] true false (patched 41) 41 [] eq_refl eq_refl _ _).
  - by right.
  - by repeat constructor.
Defined.

(** Two curves: the command is appended, no entity comes back. *)
Lemma curve_operands_emit_then_TypeError_witness :
  @_boolean_operation attributes "BooleanFragments" [curve 1] [curve 2]
    false false (patched 0)
  = (set_self
       (set_GMSH_CODE
          ["bo1[] = BooleanFragments{ Line{Curve};  } { Line{Curve}; };"]
          (set_BOOLEAN_ID 1 new_Geometry)) fresh,
     inl TypeError).
Proof.
  refine (@curve_operands_emit_then_TypeError attributes "BooleanFragments" (curve 1)
            [] [curve 2] false false (patched 0) 0 [] eq_refl eq_refl eq_refl _).
  by repeat constructor.
Defined.

(** The first tool is a box, the second a curve: the box is reported. *)
Lemma first_incompatible_operand_is_reported_witness :
  @_boolean_operation attributes "BooleanFragments" [rectangle 1; disk 2]
    [box 3; curve 4] true true (patched 0)
  = (set_self (set_BOOLEAN_ID 1 (self (patched 0))) (patched 0),
     inl (AssertionError (IncompatibleDimension (box 3)))).
Proof.
  refine (@first_incompatible_operand_is_reported attributes "BooleanFragments"
            (rectangle 1) (box 3) [disk 2] [box 3; curve 4] [disk 2] [curve 4]
            true true (patched 0) 0 eq_refl _ eq_refl _ _).
  - apply list_elem_of_further, list_elem_of_here.
  - by repeat constructor.
  - discriminate.
Defined.

(** No input, one tool. *)
Lemma IndexError_iff_no_input_witness :
  (@_boolean_operation attributes "BooleanFragments" [] [box 1] true true
     (patched 0)).2 = inl IndexError ∧
  (@_boolean_operation attributes "BooleanFragments" [] [box 1] true true
     (patched 0)).1 = set_self (set_BOOLEAN_ID 1 (self (patched 0))) (patched 0).
Proof.
  destruct (@IndexError_iff_no_input attributes "BooleanFragments" [] [box 1]
              true true (patched 0) 0 eq_refl) as [[_ Hraises] Hworld].
  split; [by apply Hraises|by apply Hworld].
Defined.

(** Both characteristic lengths given. *)
Lemma init_kernel_calls_in_order_witness :
  @__init__ one_group (Some (Num 0.1)) (Some (Num 2)) (mkWorld new_Geometry [] [])
  = (mkWorld new_Geometry
       [gmsh.initialize;
        gmsh.option_setNumber "Mesh.CharacteristicLengthMin" (Num 0.1);
        gmsh.option_setNumber "Mesh.CharacteristicLengthMax" (Num 2)] [],
     inr ()).
Proof.
  refine (@init_kernel_calls_in_order one_group (Some (Num 0.1)) (Some (Num 2))
            (mkWorld new_Geometry [] []) _).
  intros history c. discriminate.
Defined.

(** The first and the third of [three_calls]. *)
Lemma script_mode_names_are_distinct_witness :
  id0_of (SurfaceBase "bo1" true) ≠ id0_of (VolumeBase "bo2" true) ∧
  is_Some (id0_of (SurfaceBase "bo1" true)) ∧
  is_Some (id0_of (VolumeBase "bo2" true)).
Proof.
  refine (@script_mode_names_are_distinct attributes one_group three_calls
            (patched 0) 0 0%nat 2%nat [rectangle 1] [disk 2] true true
            [box 5; box 6] [] false false _ _ eq_refl _ eq_refl eq_refl
            eq_refl eq_refl).
  lia.
Defined.

Lemma command_stream_is_append_only_witness :
  ∃ added,
    _GMSH_CODE (self (@run_ops attributes one_group three_calls (patched 0)).1)
      = Some ([] ++ added) ∧
    (Z.of_nat (length added) ≤ 2)%Z.
Proof.
  exact (@command_stream_is_append_only attributes one_group three_calls
           (patched 0) [] eq_refl).
Defined.

(** Three boxes, cut after the second: the rest of the intersection is the
    one of the first step's output with the third box. *)
Lemma boolean_intersection_in_two_parts_witness :
  @boolean_intersection attributes one_group [box 1; box 2; box 3] fresh
  = @boolean_intersection attributes one_group
      [Boolean [(3, 7)] "Intersection"; box 3]
      (logged [gmsh.model_occ_intersect [(3, 1)] [(3, 2)] true true] fresh).
Proof.
  refine (@boolean_intersection_in_two_parts attributes one_group (box 1)
            (Boolean [(3, 7)] "Intersection") [box 2] [box 3] fresh _ _).
  apply (@pairwise_fold_step attributes one_group _ (3, 1) (box 2) [] (3, 7) [] _ (3, 7));
    [reflexivity|constructor|].
  apply pairwise_fold_done.
Defined.

(** No group at the first step. *)
Lemma boolean_intersection_empty_output_witness :
  @boolean_intersection attributes no_group [box 1; box 2; box 3] fresh
  = (logged [gmsh.model_occ_intersect [(3, 1)] [(3, 2)] true true] fresh,
     inl IndexError).
Proof.
  refine (@boolean_intersection_empty_output attributes no_group (box 1) (box 2)
            [] [box 3] fresh [] (3, 1) _ eq_refl).
  apply pairwise_fold_done.
Defined.

(** A kernel error at the first step. *)
Lemma boolean_intersection_kernel_error_witness :
  @boolean_intersection attributes broken_kernel [box 1; box 2; box 3] fresh
  = (logged [gmsh.model_occ_intersect [(3, 1)] [(3, 2)] true true] fresh,
     inl KernelError).
Proof.
  refine (@boolean_intersection_kernel_error attributes broken_kernel (box 1) (box 2)
            [] [box 3] fresh [] (3, 1) _ eq_refl).
  apply pairwise_fold_done.
Defined.

End FurtherRuns.
